(** * agent-skills-tool: a shallow embedding of [src/index.ts]

    The installer is a Node.js command-line program.  This development
    embeds its functions as Rocq functions and proves the properties that
    the specification states about them.

    - JavaScript strings are [string]s: sequences of code units below 256.
    - The platform is POSIX: [path] is Node's [path.posix].
    - Promise-returning functions are computations in the monad [M]
      (state passing over the file system and the effect trace, with
      exceptions and process exit as outcomes).
    - Library and platform services that the program calls (the URL class,
      [semver.valid], [fs], [gray-matter], [inquirer], [git]) are modelled
      next to the functions that call them; each model says what it
      covers. *)

From Stdlib Require Import Bool Arith ZArith Lia List.
From Stdlib Require Import Strings.Ascii Strings.String Numbers.DecimalString.
Import ListNotations.

Open Scope bool_scope.
Open Scope list_scope.
Open Scope string_scope.

(* ================================================================== *)
(** * Part I: definitions *)
(* ================================================================== *)

(** ** JavaScript string primitives *)

Module Str.

Definition slash : ascii := "/"%char.
Definition dot : ascii := "."%char.

(** [s.startsWith(p)] *)
Fixpoint startsWith (s p : string) {struct p} : bool :=
  match p with
  | EmptyString => true
  | String c p' =>
      match s with
      | EmptyString => false
      | String d s' => Ascii.eqb d c && startsWith s' p'
      end
  end.

(** [s.endsWith(p)] *)
Fixpoint endsWith (s p : string) : bool :=
  String.eqb s p ||
  match s with
  | EmptyString => false
  | String _ r => endsWith r p
  end.

(** [s.split(sep)] for a one-character separator; never the empty list. *)
Fixpoint split (sep : ascii) (s : string) : list string :=
  match s with
  | EmptyString => [EmptyString]
  | String c r =>
      if Ascii.eqb c sep then EmptyString :: split sep r
      else match split sep r with
           | h :: t => String c h :: t
           | [] => [String c EmptyString]
           end
  end.

(** [l.join(sep)] *)
Definition join (sep : string) (l : list string) : string :=
  String.concat sep l.

Definition chars (s : string) : list ascii := list_ascii_of_string s.
Definition of_chars (l : list ascii) : string := string_of_list_ascii l.

Definition in_range (lo hi : ascii) (c : ascii) : bool :=
  Nat.leb (nat_of_ascii lo) (nat_of_ascii c)
  && Nat.leb (nat_of_ascii c) (nat_of_ascii hi).

Definition is_digit (c : ascii) : bool := in_range "0" "9" c.
Definition is_letter (c : ascii) : bool := in_range "a" "z" c || in_range "A" "Z" c.

(** The regular-expression class [\w]. *)
Definition is_word (c : ascii) : bool :=
  is_letter c || is_digit c || Ascii.eqb c "_".

(** White space and line terminators of ECMAScript among the code units
    below 256: TAB, LF, VT, FF, CR, SPACE and NBSP. *)
Definition is_space (c : ascii) : bool :=
  existsb (Nat.eqb (nat_of_ascii c)) [9; 10; 11; 12; 13; 32; 160].

Fixpoint dropWhile {A} (f : A -> bool) (l : list A) : list A :=
  match l with
  | [] => []
  | x :: r => if f x then dropWhile f r else l
  end.

Fixpoint takeWhile {A} (f : A -> bool) (l : list A) : list A :=
  match l with
  | [] => []
  | x :: r => if f x then x :: takeWhile f r else []
  end.

Definition trimStart (s : string) : string :=
  of_chars (dropWhile is_space (chars s)).

Definition trimEnd (s : string) : string :=
  of_chars (rev (dropWhile is_space (rev (chars s)))).

(** [s.trim()] *)
Definition trim (s : string) : string := trimEnd (trimStart s).

(** The text [s] between double quotes, as a message shows it. *)
Definition quoted (s : string) : string :=
  let q := String (ascii_of_nat 34) EmptyString in q ++ s ++ q.

(** No character of [s] is [sep]. *)
Definition free (sep : ascii) (s : string) : bool :=
  forallb (fun c => negb (Ascii.eqb c sep)) (chars s).

(** A JavaScript string is truthy when it is not empty. *)
Definition truthy (s : string) : bool := negb (String.eqb s "").

(** An optional string ([string | undefined]) used as a condition. *)
Definition truthy_opt (o : option string) : bool :=
  match o with
  | Some s => truthy s
  | None => false
  end.

(** [a || b] on optional strings *)
Definition or_else (a : option string) (b : option string) : option string :=
  if truthy_opt a then a else b.

End Str.

(** ** Node's [path.posix] *)

Module Path.
Import Str.

(** One step of [normalizeString]: an empty segment and ["."] are
    dropped, [".."] removes the last kept segment (or, when
    [allowAboveRoot], is kept once nothing is left to remove), any other
    segment is kept.  The kept segments are held last-first. *)
Definition step (allowAboveRoot : bool) (kept : list string) (seg : string)
  : list string :=
  if String.eqb seg "" || String.eqb seg "." then kept
  else if String.eqb seg ".." then
    match kept with
    | [] => if allowAboveRoot then [".."] else []
    | top :: below =>
        if String.eqb top ".." then
          (if allowAboveRoot then ".." :: kept else kept)
        else below
    end
  else seg :: kept.

Definition normalizeSegments (allowAboveRoot : bool) (segs : list string)
  : list string :=
  rev (fold_left (step allowAboveRoot) segs []).

Definition normalizeString (path : string) (allowAboveRoot : bool) : string :=
  join "/" (normalizeSegments allowAboveRoot (split slash path)).

Definition isAbsolute (path : string) : bool := startsWith path "/".

(** [path.normalize] *)
Definition normalize (path : string) : string :=
  if String.eqb path "" then "."
  else
    let trailingSeparator := endsWith path "/" in
    let p := normalizeString path (negb (isAbsolute path)) in
    if String.eqb p "" then
      (if isAbsolute path then "/" else if trailingSeparator then "./" else ".")
    else
      let p := if trailingSeparator then p ++ "/" else p in
      if isAbsolute path then "/" ++ p else p.

(** [path.join(...args)] *)
Definition join (args : list string) : string :=
  let joined := Str.join "/" (filter Str.truthy args) in
  if String.eqb joined "" then "." else normalize joined.

(** [path.resolve(p)] for one argument, relative to the working
    directory [cwd] (an absolute path). *)
Definition resolve (cwd : string) (p : string) : string :=
  let resolvedPath :=
    if String.eqb p "" then cwd ++ "/"
    else if isAbsolute p then p ++ "/"
    else cwd ++ "/" ++ p ++ "/" in
  "/" ++ normalizeString resolvedPath false.

Definition is_slash (c : ascii) : bool := Ascii.eqb c slash.
Definition not_slash (c : ascii) : bool := negb (is_slash c).

(** [path.basename(p)]: the last segment, trailing slashes ignored. *)
Definition basename (path : string) : string :=
  of_chars (rev (takeWhile not_slash (dropWhile is_slash (rev (chars path))))).

(** [path.dirname(p)] *)
Definition dirname (path : string) : string :=
  match path with
  | EmptyString => "."
  | String c0 rest =>
      let hasRoot := is_slash c0 in
      (* scan from the end down to index 1 *)
      let afterTrailing := dropWhile is_slash (rev (chars rest)) in
      match dropWhile not_slash afterTrailing with
      | [] => if hasRoot then "/" else "."
      | _ :: before =>
          match before with
          | [] => if hasRoot then "//" else String c0 ""
          | _ => String c0 (of_chars (rev before))
          end
      end
  end.

End Path.

(** ** JavaScript values

    The values a YAML header can hold, as the validator sees them:
    [undefined] (an absent property), [null], booleans, numbers, strings,
    arrays and plain objects.  Numbers are the integer-valued ones that
    [String] prints as plain decimal digits; objects are plain data
    records, their keys are data keys. *)

Module JS.

#[local] Set Warnings "-register-all".

Inductive value : Type :=
| VUndefined
| VNull
| VBool (b : bool)
| VNum (z : Z)
| VStr (s : string)
| VArr (items : list value)
| VObj (fields : list (string * value)).

(** [ToBoolean] *)
Definition truthy (v : value) : bool :=
  match v with
  | VUndefined | VNull => false
  | VBool b => b
  | VNum z => negb (Z.eqb z 0)
  | VStr s => Str.truthy s
  | VArr _ | VObj _ => true
  end.

(** [typeof v === "object"] *)
Definition typeof_object (v : value) : bool :=
  match v with
  | VNull | VArr _ | VObj _ => true
  | _ => false
  end.

Fixpoint assoc {A} (k : string) (l : list (string * A)) : option A :=
  match l with
  | [] => None
  | (k', a) :: r => if String.eqb k k' then Some a else assoc k r
  end.

(** Property read [v.k], for the keys the validator reads ([name],
    [description], [metadata], [version]): the own property of an
    object, [undefined] on anything else. *)
Definition get (v : value) (k : string) : value :=
  match v with
  | VObj fields =>
      match assoc k fields with
      | Some x => x
      | None => VUndefined
      end
  | _ => VUndefined
  end.

(** [a || b] *)
Definition or (a b : value) : value := if truthy a then a else b.

Definition string_of_Z (z : Z) : string :=
  NilZero.string_of_int (Z.to_int z).

(** [String(v)] *)
Fixpoint toString (v : value) : string :=
  match v with
  | VUndefined => "undefined"
  | VNull => "null"
  | VBool true => "true"
  | VBool false => "false"
  | VNum z => string_of_Z z
  | VStr s => s
  | VArr items =>
      Str.join ","
        (map (fun x => match x with
                       | VUndefined | VNull => ""
                       | _ => toString x
                       end) items)
  | VObj _ => "[object Object]"
  end.

End JS.

(** ** The [semver] package: [semver.valid]

    [semver.valid(v)] parses [v] against the package's strict grammar
    [^v?MAJOR.MINOR.PATCH(-PRERELEASE)?(+BUILD)?$] and answers the
    normalised version (a non-empty string) or [null]; the validator only
    tests the answer for truthiness, so the model answers a boolean. *)

Module Semver.
Import Str.

Definition MAX_LENGTH : nat := 256.
Definition MAX_SAFE_INTEGER : N := 9007199254740991%N.

Definition nonempty (s : string) : bool := negb (String.eqb s "").
Definition all (f : ascii -> bool) (s : string) : bool := forallb f (chars s).

Definition digit_value (c : ascii) : N := N.of_nat (nat_of_ascii c - 48).

Definition number_of (s : string) : N :=
  fold_left (fun acc c => (acc * 10 + digit_value c)%N) (chars s) 0%N.

(** [0|[1-9]\d*] *)
Definition numeric_identifier (s : string) : bool :=
  String.eqb s "0"
  || (nonempty s && all is_digit s && negb (startsWith s "0")).

(** [[a-zA-Z0-9-]] *)
Definition letter_dash_number (c : ascii) : bool :=
  is_letter c || is_digit c || Ascii.eqb c "-".

(** [\d*[a-zA-Z-][a-zA-Z0-9-]*] *)
Definition non_numeric_identifier (s : string) : bool :=
  all letter_dash_number s && negb (all is_digit s).

Definition prerelease_identifier (s : string) : bool :=
  numeric_identifier s || non_numeric_identifier s.

(** [[a-zA-Z0-9-]+] *)
Definition build_identifier (s : string) : bool :=
  nonempty s && all letter_dash_number s.

(** The text before the first [c] and, when [c] occurs, the text after. *)
Fixpoint cut (c : ascii) (s : string) : string * option string :=
  match s with
  | EmptyString => (EmptyString, None)
  | String x r =>
      if Ascii.eqb x c then (EmptyString, Some r)
      else let (a, b) := cut c r in (String x a, b)
  end.

Definition main_version (s : string) : bool :=
  match split dot s with
  | [major; minor; patch] =>
      forallb (fun x => numeric_identifier x
                        && N.leb (number_of x) MAX_SAFE_INTEGER)
              [major; minor; patch]
  | _ => false
  end.

Definition optional (f : string -> bool) (o : option string) : bool :=
  match o with
  | None => true
  | Some s => f s
  end.

Definition valid (version : string) : bool :=
  Nat.leb (String.length version) MAX_LENGTH &&
  let s := trim version in
  let s := match s with
           | String "v" r => r
           | _ => s
           end in
  let (front, build) := cut "+" s in
  let (main, prerelease) := cut "-" front in
  main_version main
  && optional (fun p => forallb prerelease_identifier (split dot p)) prerelease
  && optional (fun b => forallb build_identifier (split dot b)) build.

End Semver.

(** ** The WHATWG [URL] class, for [http:] and [https:] inputs

    The program reads [hostname] and [pathname].  The model strips the
    input's outer control characters and spaces, skips the slashes after
    the scheme, drops credentials and a decimal port, lower-cases the
    host, rejects an empty host and a host with a forbidden code point,
    cuts the path at [?] or [#] and removes dot segments.  Percent
    encoding, internationalised and numeric (IP) hosts are not
    modelled. *)

Module Url.
Import Str.

Record URL : Type := mkURL { hostname : string; pathname : string }.

Definition is_c0_or_space (c : ascii) : bool := Nat.leb (nat_of_ascii c) 32.
Definition is_tab_or_newline (c : ascii) : bool :=
  existsb (Nat.eqb (nat_of_ascii c)) [9; 10; 13].
Definition is_any_slash (c : ascii) : bool :=
  Ascii.eqb c "/" || Ascii.eqb c "\".
Definition ends_authority (c : ascii) : bool :=
  is_any_slash c || Ascii.eqb c "?" || Ascii.eqb c "#".
Definition ends_path (c : ascii) : bool :=
  Ascii.eqb c "?" || Ascii.eqb c "#".

Definition forbidden_host (c : ascii) : bool :=
  Nat.leb (nat_of_ascii c) 32
  || Nat.leb 127 (nat_of_ascii c)
  || existsb (Ascii.eqb c)
       ["#"; "%"; "/"; ":"; "<"; ">"; "?"; "@"; "["; "\"; "]"; "^"; "|"]%char.

Definition lower (c : ascii) : ascii :=
  if in_range "A" "Z" c then ascii_of_nat (nat_of_ascii c + 32) else c.

(** The scheme and what follows [scheme:]. *)
Definition scheme_rest (s : string) : option (list ascii) :=
  if startsWith s "http:" then Some (chars (substring 5 (length s - 5) s))
  else if startsWith s "https:" then Some (chars (substring 6 (length s - 6) s))
  else None.

(** The text after the last [c], or the whole text. *)
Definition after_last (c : ascii) (l : list ascii) : list ascii :=
  rev (takeWhile (fun x => negb (Ascii.eqb x c)) (rev l)).

Definition has (c : ascii) (l : list ascii) : bool := existsb (Ascii.eqb c) l.

(** Host and port of an authority without credentials. *)
Definition host_port (l : list ascii) : option (list ascii) :=
  if has ":" l then
    let port := after_last ":" l in
    let host := removelast (firstn (List.length l - List.length port) l) in
    if forallb is_digit port
       && N.leb (Semver.number_of (of_chars port)) 65535
    then Some host else None
  else Some l.

(** Dot-segment removal of the path state. *)
Fixpoint path_segments (kept : list string) (segs : list string) : list string :=
  match segs with
  | [] => rev kept
  | seg :: rest =>
      let last := match rest with [] => true | _ => false end in
      if String.eqb seg ".." then
        path_segments (if last then "" :: tl kept else tl kept) rest
      else if String.eqb seg "." then
        path_segments (if last then "" :: kept else kept) rest
      else path_segments (seg :: kept) rest
  end.

Definition parse_path (l : list ascii) : string :=
  let raw := map (fun c => if Ascii.eqb c "\" then slash else c)
                 (takeWhile (fun c => negb (ends_path c)) l) in
  match raw with
  | [] => "/"
  | _ :: after => "/" ++ join "/" (path_segments [] (split slash (of_chars after)))
  end.

(** [new URL(input)]; [None] when the constructor throws. *)
Definition URL_new (input : string) : option URL :=
  let stripped :=
    rev (dropWhile is_c0_or_space (rev (dropWhile is_c0_or_space (chars input)))) in
  let cleaned := filter (fun c => negb (is_tab_or_newline c)) stripped in
  match scheme_rest (of_chars cleaned) with
  | None => None
  | Some rest =>
      let rest := dropWhile is_any_slash rest in
      let authority := takeWhile (fun c => negb (ends_authority c)) rest in
      let tail := dropWhile (fun c => negb (ends_authority c)) rest in
      match host_port (after_last "@" authority) with
      | None => None
      | Some host =>
          match host with
          | [] => None
          | _ =>
              if existsb forbidden_host host then None
              else Some (mkURL (of_chars (map lower host)) (parse_path tail))
          end
      end
  end.

End Url.

(** ** The program's data

    The records and the union of the source.  Two options are named
    [opt_subdir] and [opt_ref], and one action [merge_action], because
    [subdir], [ref] and [merge] name other fields here. *)

Record InstallOptions : Type := mkOptions {
  skillPath : option string;
  opt_subdir : option string;
  opt_ref : option string;
  destinationProjectPath : option string;
  force : bool;
  merge : bool
}.

Record InstallTarget : Type := mkTarget {
  label : string;
  baseDir : string
}.

Record RepoSpec : Type := mkRepoSpec {
  repoUrl : string;
  ref : option string;
  subdir : option string
}.

Inductive ConflictAction : Type := overwrite | merge_action | skip.

(** What the process environment supplies: [process.cwd()],
    [os.homedir()], [os.tmpdir()] and [process.env.CODEX_HOME]. *)
Record Env : Type := mkEnv {
  cwd : string;
  homedir : string;
  tmpdir : string;
  CODEX_HOME : option string
}.

(** ** Repo-spec parsing *)

(** [[\w.-]] *)
Definition repo_char (c : ascii) : bool :=
  Str.is_word c || Ascii.eqb c "." || Ascii.eqb c "-".

(** [/^[\w.-]+\/[\w.-]+$/.test(input)] *)
Definition shorthand_test (input : string) : bool :=
  match Str.split Str.slash input with
  | [owner; repo] =>
      Str.truthy owner && forallb repo_char (Str.chars owner)
      && Str.truthy repo && forallb repo_char (Str.chars repo)
  | _ => false
  end.

Definition isRepoLike (input : string) : bool :=
  if negb (Str.truthy input) then false
  else if Str.startsWith input "http://" || Str.startsWith input "https://" then true
  else if Str.endsWith input ".git" then true
  else shorthand_test input.

(** [s.replace(/^\//, "")] *)
Definition strip_leading_slash (s : string) : string :=
  match s with
  | String "/" r => r
  | _ => s
  end.

Definition is_tree_or_blob (seg : option string) : bool :=
  match seg with
  | Some s => String.eqb s "tree" || String.eqb s "blob"
  | None => false
  end.

Definition parseGitHubUrl (url : Url.URL) : option RepoSpec :=
  let segments := Str.split Str.slash (strip_leading_slash (Url.pathname url)) in
  if Nat.ltb (List.length segments) 2 then None
  else
    let owner := nth 0 segments "" in
    let repo := nth 1 segments "" in
    let '(ref, subdir) :=
      if is_tree_or_blob (nth_error segments 2) then
        let ref := nth_error segments 3 in
        let subdir := Str.join "/" (skipn 4 segments) in
        let subdir :=
          if Str.truthy subdir && Str.endsWith subdir "SKILL.md"
          then Path.dirname subdir else subdir in
        (ref, Some subdir)
      else (None, None) in
    Some (mkRepoSpec ("https://github.com/" ++ owner ++ "/" ++ repo ++ ".git")
                     ref subdir).

Definition parseRepoSpec (input : string) : option RepoSpec :=
  if negb (Str.truthy input) then None
  else if Str.startsWith input "http://" || Str.startsWith input "https://" then
    match Url.URL_new input with
    | Some url =>
        let githubSpec :=
          if String.eqb (Url.hostname url) "github.com"
          then parseGitHubUrl url else None in
        match githubSpec with
        | Some spec => Some spec
        | None => Some (mkRepoSpec input None None)
        end
    | None => None
    end
  else if Str.endsWith input ".git" then Some (mkRepoSpec input None None)
  else if shorthand_test input then
    Some (mkRepoSpec ("https://github.com/" ++ input ++ ".git") None None)
  else None.

(** ** Exceptions and results *)

Inductive exn : Type :=
| Error (message : string)              (* [new Error(message)] *)
| SystemError (code : string) (path : string)  (* a rejected [fs] call *)
| YAMLException.                        (* thrown by the header parser *)

Inductive result (A : Type) : Type :=
| Ok (a : A)
| Throw (e : exn).
Arguments Ok {A} a.
Arguments Throw {A} e.

(** ** Manifest validation *)

Definition field_text (v : JS.value) : string :=
  Str.trim (JS.toString (JS.or v (JS.VStr ""))).

Definition validateFrontmatter (frontmatter : JS.value) (skillFile : string)
  : result unit :=
  if negb (JS.truthy frontmatter) || negb (JS.typeof_object frontmatter) then
    Throw (Error ("Missing YAML frontmatter in " ++ skillFile))
  else
    let name := field_text (JS.get frontmatter "name") in
    let description := field_text (JS.get frontmatter "description") in
    let metadata :=
      let m := JS.get frontmatter "metadata" in
      if JS.truthy m && JS.typeof_object m then Some m else None in
    let version :=
      field_text (match metadata with
                  | Some m => JS.get m "version"
                  | None => JS.VUndefined
                  end) in
    if negb (Str.truthy name) then
      Throw (Error ("Missing required frontmatter field " ++ Str.quoted "name"
                    ++ " in " ++ skillFile))
    else if negb (Str.truthy description) then
      Throw (Error ("Missing required frontmatter field " ++ Str.quoted "description"
                    ++ " in " ++ skillFile))
    else if negb (Str.truthy version) then
      Throw (Error ("Missing required frontmatter field "
                    ++ Str.quoted "metadata.version" ++ " in " ++ skillFile))
    else if negb (Semver.valid version) then
      Throw (Error ("Invalid semver " ++ Str.quoted "metadata.version" ++ " in " ++ skillFile
                    ++ ": " ++ version))
    else Ok tt.

(** ** Install targets *)

Definition getInstallTargets (e : Env) (destinationProjectPath : option string)
  : list InstallTarget :=
  if Str.truthy_opt destinationProjectPath then
    let projectRoot :=
      Path.resolve (cwd e) (match destinationProjectPath with
                            | Some p => p
                            | None => ""
                            end) in
    [ mkTarget "codex-project" (Path.join [projectRoot; ".codex"; "skills"]);
      mkTarget "claude-project" (Path.join [projectRoot; ".claude"; "skills"]);
      mkTarget "gemini-project" (Path.join [projectRoot; ".gemini"; "skills"]) ]
  else
    let homeDir := homedir e in
    let codexHome :=
      match CODEX_HOME e with
      | Some h => if Str.truthy h then Path.resolve (cwd e) h
                  else Path.join [homeDir; ".codex"]
      | None => Path.join [homeDir; ".codex"]
      end in
    [ mkTarget "codex-user" (Path.join [codexHome; "skills"]);
      mkTarget "claude-user" (Path.join [homeDir; ".claude"; "skills"]);
      mkTarget "gemini-user" (Path.join [homeDir; ".gemini"; "skills"]) ].


(** ** The file system

    A tree of regular files and directories; a directory lists its entries
    in the order a directory read yields them.  Links and special files
    are not modelled.  A path string names the node that its segments,
    normalised against the working directory, lead to. *)

Module Fs.

#[local] Set Warnings "-register-all".

Inductive node : Type :=
| File (data : string)
| Dir (entries : list (string * node)).

(** What [stat] tells: a regular file, a directory, or neither (a
    socket, a device: no node of this model). *)
Inductive Stats : Type := IsFile | IsDirectory | IsOther.

Definition stats_of (n : node) : Stats :=
  match n with
  | File _ => IsFile
  | Dir _ => IsDirectory
  end.

Definition lookup (name : string) (es : list (string * node)) : option node :=
  JS.assoc name es.

Fixpoint entry_set (name : string) (n : node) (es : list (string * node))
  : list (string * node) :=
  match es with
  | [] => [(name, n)]
  | (k, x) :: r =>
      if String.eqb name k then (k, n) :: r else (k, x) :: entry_set name n r
  end.

Fixpoint entry_del (name : string) (es : list (string * node))
  : list (string * node) :=
  match es with
  | [] => []
  | (k, x) :: r =>
      if String.eqb name k then entry_del name r else (k, x) :: entry_del name r
  end.

(** The node at a path of segments. *)
Fixpoint find (p : list string) (n : node) : option node :=
  match p with
  | [] => Some n
  | s :: p' =>
      match n with
      | Dir es =>
          match lookup s es with
          | Some c => find p' c
          | None => None
          end
      | File _ => None
      end
  end.

(** The contents of the regular file at a path of segments. *)
Definition file_at (p : list string) (n : node) : option string :=
  match find p n with
  | Some (File data) => Some data
  | _ => None
  end.

(** [mkdir -p]: [None] when a segment of the path names a regular file. *)
Fixpoint mkdirp (p : list string) (n : node) : option node :=
  match n with
  | File _ => None
  | Dir es =>
      match p with
      | [] => Some n
      | s :: p' =>
          let child := match lookup s es with
                       | Some c => c
                       | None => Dir []
                       end in
          match mkdirp p' child with
          | Some c' => Some (Dir (entry_set s c' es))
          | None => None
          end
      end
  end.

(** Put [new] at the path; the directories above it must exist. *)
Fixpoint write (p : list string) (new : node) (n : node) : option node :=
  match p with
  | [] => Some new
  | s :: p' =>
      match n with
      | File _ => None
      | Dir es =>
          match p' with
          | [] => Some (Dir (entry_set s new es))
          | _ =>
              match lookup s es with
              | Some c =>
                  match write p' new c with
                  | Some c' => Some (Dir (entry_set s c' es))
                  | None => None
                  end
              | None => None
              end
          end
      end
  end.

(** [rm -rf]: the subtree at the path is gone; nothing else changes. *)
Fixpoint remove (p : list string) (n : node) : node :=
  match p with
  | [] => n
  | s :: p' =>
      match n with
      | File _ => n
      | Dir es =>
          match p' with
          | [] => Dir (entry_del s es)
          | _ =>
              match lookup s es with
              | Some c => Dir (entry_set s (remove p' c) es)
              | None => n
              end
          end
      end
  end.

(** [fs.cp(src, dest, {recursive: true, force: true})] on one source node
    and what is at the destination: the destination afterwards, and
    whether the copy ran to its end.  A regular file replaces a regular
    file; a directory is copied entry by entry, in order, into the
    directory found or made at the destination; the copy stops at the
    first entry that is a directory on one side and a regular file on the
    other, leaving what it has written. *)
Fixpoint cp_node (src : node) (dest : option node) : node * bool :=
  match src with
  | File data =>
      match dest with
      | Some (Dir ds) => (Dir ds, false)
      | _ => (File data, true)
      end
  | Dir es =>
      match dest with
      | Some (File d) => (File d, false)
      | _ =>
          let ds := match dest with
                    | Some (Dir ds) => ds
                    | _ => []
                    end in
          let '(ds', ok) :=
            (fix cp_entries (es : list (string * node)) (ds : list (string * node))
               : list (string * node) * bool :=
               match es with
               | [] => (ds, true)
               | (name, s) :: rest =>
                   let '(d', ok) := cp_node s (lookup name ds) in
                   if ok then cp_entries rest (entry_set name d' ds)
                   else (entry_set name d' ds, false)
               end) es ds in
          (Dir ds', ok)
      end
  end.

(** The directory loop of [cp_node], by name. *)
Fixpoint cp_entries (es : list (string * node)) (ds : list (string * node))
  : list (string * node) * bool :=
  match es with
  | [] => (ds, true)
  | (name, s) :: rest =>
      let '(d', ok) := cp_node s (lookup name ds) in
      if ok then cp_entries rest (entry_set name d' ds)
      else (entry_set name d' ds, false)
  end.

(** The segments of a path string, from the root. *)
Definition segments (cwd : string) (path : string) : list string :=
  Path.normalizeSegments false
    (Str.split Str.slash
       (if Path.isAbsolute path then path else cwd ++ "/" ++ path)).

Fixpoint is_prefix (p q : list string) : bool :=
  match p, q with
  | [], _ => true
  | a :: p', b :: q' => String.eqb a b && is_prefix p' q'
  | _ :: _, [] => false
  end.

End Fs.

(** ** Effects

    A run acts on a world: the file system and the trace of the calls made
    to the platform (oldest first).  A computation ends by returning, by
    throwing, or by ending the process. *)

Inductive event : Type :=
| EvStat (path : string)
| EvReadFile (path : string)
| EvAccess (path : string)
| EvMkdir (path : string)
| EvMkdtemp (prefix : string)
| EvRm (path : string)
| EvCp (src dest : string)
| EvSpawn (command : string) (args : list string)
| EvPrompt (label : string) (dir : string)
| EvLog (message : string)
| EvWarn (message : string)
| EvHelp.

Record World : Type := mkWorld {
  fs : Fs.node;
  trace : list event
}.

Inductive outcome (A : Type) : Type :=
| Returned (a : A)
| Thrown (e : exn)
| Exited (code : Z).
Arguments Returned {A} a.
Arguments Thrown {A} e.
Arguments Exited {A} code.

Definition M (A : Type) : Type := World -> outcome A * World.

Definition ret {A} (a : A) : M A := fun w => (Returned a, w).

Definition bind {A B} (m : M A) (k : A -> M B) : M B :=
  fun w =>
    match m w with
    | (Returned a, w') => k a w'
    | (Thrown e, w') => (Thrown e, w')
    | (Exited c, w') => (Exited c, w')
    end.

Notation "x <- m ;; k" := (bind m (fun x => k))
  (at level 61, m at next level, right associativity).
Notation "m ;;; k" := (bind m (fun _ => k))
  (at level 61, right associativity).

Definition throw {A} (e : exn) : M A := fun w => (Thrown e, w).

Definition exit {A} (code : Z) : M A := fun w => (Exited code, w).

Definition emit (e : event) : M unit :=
  fun w => (Returned tt, mkWorld (fs w) (trace w ++ [e])).

Definition get_fs : M Fs.node := fun w => (Returned (fs w), w).

Definition set_fs (n : Fs.node) : M unit :=
  fun w => (Returned tt, mkWorld n (trace w)).

Definition lift {A} (r : result A) : M A :=
  match r with
  | Ok a => ret a
  | Throw e => throw e
  end.

(** [m.catch(() => null)] *)
Definition catch_null {A} (m : M A) : M (option A) :=
  fun w =>
    match m w with
    | (Returned a, w') => (Returned (Some a), w')
    | (Thrown _, w') => (Returned None, w')
    | (Exited c, w') => (Exited c, w')
    end.

(** [try { body } finally { final }] *)
Definition try_finally {A} (body : M A) (final : M unit) : M A :=
  fun w =>
    match body w with
    | (Exited c, w') => (Exited c, w')
    | (r, w') =>
        match final w' with
        | (Returned _, w'') => (r, w'')
        | (Thrown e, w'') => (Thrown e, w'')
        | (Exited c, w'') => (Exited c, w'')
        end
    end.

Fixpoint for_of {A} (l : list A) (body : A -> M unit) : M unit :=
  match l with
  | [] => ret tt
  | x :: r => body x ;;; for_of r body
  end.

(** ** Platform services *)

(** How the spawned [git] ends: it could not be started ([ENOENT] or
    another error), or it closed with an exit code; a clone that exits
    with 0 has written its checkout into the directory it was given. *)
Inductive GitResult : Type :=
| SpawnENOENT
| SpawnError (message : string)
| Closed (code : Z) (checkout : list (string * Fs.node)).

Record Platform : Type := mkPlatform {
  env : Env;
  (** the six characters [fs.mkdtemp] appends *)
  mkdtemp_suffix : string;
  (** the [git] client, by its arguments *)
  git : list string -> GitResult;
  (** [matter(contents).data], or nothing when the header does not parse *)
  matter : string -> option JS.value;
  (** the operator's answer to the conflict prompt *)
  inquirer_prompt : string -> string -> ConflictAction
}.

(** ** [node:fs/promises] *)

Section Program.

Variable P : Platform.

Definition seg (path : string) : list string := Fs.segments (cwd (env P)) path.

Definition fs_stat (path : string) : M Fs.Stats :=
  emit (EvStat path) ;;;
  t <- get_fs ;;
  match Fs.find (seg path) t with
  | Some n => ret (Fs.stats_of n)
  | None => throw (SystemError "ENOENT" path)
  end.

Definition fs_readFile (path : string) : M string :=
  emit (EvReadFile path) ;;;
  t <- get_fs ;;
  match Fs.find (seg path) t with
  | Some (Fs.File data) => ret data
  | Some (Fs.Dir _) => throw (SystemError "EISDIR" path)
  | None => throw (SystemError "ENOENT" path)
  end.

Definition fs_access (path : string) : M unit :=
  emit (EvAccess path) ;;;
  t <- get_fs ;;
  match Fs.find (seg path) t with
  | Some _ => ret tt
  | None => throw (SystemError "ENOENT" path)
  end.

(** [fs.mkdir(path, {recursive: true})] *)
Definition fs_mkdir (path : string) : M unit :=
  emit (EvMkdir path) ;;;
  t <- get_fs ;;
  match Fs.mkdirp (seg path) t with
  | Some t' => set_fs t'
  | None => throw (SystemError "ENOTDIR" path)
  end.

(** [fs.rm(path, {recursive: true, force: true})] *)
Definition fs_rm (path : string) : M unit :=
  emit (EvRm path) ;;;
  t <- get_fs ;;
  set_fs (Fs.remove (seg path) t).

(** [fs.mkdtemp(prefix)]: a new directory named by the prefix and the
    platform's suffix; its parent must be a directory. *)
Definition fs_mkdtemp (prefix : string) : M string :=
  emit (EvMkdtemp prefix) ;;;
  t <- get_fs ;;
  let path := prefix ++ mkdtemp_suffix P in
  match Fs.find (seg path) t with
  | Some _ => throw (SystemError "EEXIST" path)
  | None =>
      match Fs.find (removelast (seg path)) t with
      | Some (Fs.Dir _) =>
          match Fs.write (seg path) (Fs.Dir []) t with
          | Some t' => set_fs t' ;;; ret path
          | None => throw (SystemError "ENOENT" path)
          end
      | _ => throw (SystemError "ENOENT" path)
      end
  end.

(** [fs.cp(src, dest, {recursive: true, force: true, errorOnExist: false})]:
    the source must exist and must neither be the destination nor contain
    it; the directory above the destination is made when missing; then the
    source node is copied over what is at the destination. *)
Definition fs_cp (src dest : string) : M unit :=
  emit (EvCp src dest) ;;;
  t <- get_fs ;;
  match Fs.find (seg src) t with
  | None => throw (SystemError "ENOENT" src)
  | Some s =>
      if Fs.is_prefix (seg src) (seg dest) then
        throw (SystemError "ERR_FS_CP_EINVAL" dest)
      else
        match Fs.mkdirp (removelast (seg dest)) t with
        | None => throw (SystemError "ENOTDIR" dest)
        | Some t1 =>
            let '(d', ok) := Fs.cp_node s (Fs.find (seg dest) t1) in
            match Fs.write (seg dest) d' t1 with
            | None => throw (SystemError "ENOTDIR" dest)
            | Some t2 =>
                set_fs t2 ;;;
                if ok then ret tt
                else
                  (* or [ERR_FS_CP_NON_DIR_TO_DIR]: one code stands for both *)
                  throw (SystemError "ERR_FS_CP_DIR_TO_NON_DIR" dest)
            end
        end
  end.

(** ** Source resolution *)

Record ResolveResult : Type := mkResolveResult {
  skillDir : string;
  cleanup : option (M unit)
}.

Definition runGit (args : list string) : M unit :=
  emit (EvSpawn "git" args) ;;;
  match git P args with
  | SpawnENOENT => throw (Error "git is required to install from a repository")
  | SpawnError message => throw (Error message)
  | Closed code checkout =>
      if Z.eqb code 0 then
        t <- get_fs ;;
        match Fs.write (seg (last args "")) (Fs.Dir checkout) t with
        | Some t' => set_fs t'
        | None => ret tt
        end
      else throw (Error ("git exited with code " ++ JS.string_of_Z code))
  end.

Definition cloneRepo (repoUrl targetDir : string) (ref : option string) : M unit :=
  let args := ["clone"; "--depth"; "1"] in
  let args :=
    match ref with
    | Some r => if Str.truthy r
                then (args ++ ["--branch"; r; "--single-branch"])%list
                else args
    | None => args
    end in
  let args := (args ++ [repoUrl; targetDir])%list in
  runGit args.

Definition text_of (o : option string) : string :=
  match o with
  | Some s => s
  | None => ""
  end.

Definition resolveSkillDirFromBase (baseDir : string) (subdir : option string)
  : M string :=
  let skillDir :=
    if Str.truthy_opt subdir then Path.join [baseDir; text_of subdir]
    else baseDir in
  let skillFile := Path.join [skillDir; "SKILL.md"] in
  skillFileStat <- catch_null (fs_stat skillFile) ;;
  match skillFileStat with
  | Some Fs.IsFile => ret skillDir
  | _ =>
      let extra :=
        if Str.truthy_opt subdir then " (subdir: " ++ text_of subdir ++ ")"
        else "" in
      throw (Error ("SKILL.md not found in " ++ skillDir ++ extra))
  end.

Definition resolveSkillSource (resolvedSkillPath : string)
  (subdir ref : option string) : M ResolveResult :=
  match parseRepoSpec resolvedSkillPath with
  | Some (mkRepoSpec repoUrl repoRef repoSpecSubdir) =>
      if Str.truthy_opt subdir && Str.truthy_opt repoSpecSubdir then
        throw (Error "Provide either --subdir or a repo URL with a path, not both")
      else
        let repoSubdir :=
          text_of (Str.or_else repoSpecSubdir (Str.or_else subdir (Some ""))) in
        cloneDir <- fs_mkdtemp (Path.join [tmpdir (env P); "agent-skill-"]) ;;
        cloneRepo repoUrl cloneDir (Str.or_else ref repoRef) ;;;
        skillDir <- resolveSkillDirFromBase cloneDir
                      (if Str.truthy repoSubdir then Some repoSubdir else None) ;;
        ret (mkResolveResult skillDir (Some (fs_rm cloneDir)))
  | None =>
      stat <- catch_null (fs_stat resolvedSkillPath) ;;
      match stat with
      | None => throw (Error ("Skill path not found: " ++ resolvedSkillPath))
      | Some Fs.IsFile =>
          if negb (String.eqb (Path.basename resolvedSkillPath) "SKILL.md") then
            throw (Error "Skill file must be named SKILL.md")
          else ret (mkResolveResult (Path.dirname resolvedSkillPath) None)
      | Some Fs.IsOther =>
          throw (Error "Skill path must be a directory or SKILL.md file")
      | Some Fs.IsDirectory =>
          skillDir <- resolveSkillDirFromBase resolvedSkillPath
                        (if Str.truthy_opt subdir then subdir else None) ;;
          ret (mkResolveResult skillDir None)
      end
  end.

(** ** Installation *)

Definition promptConflictAction (label targetSkillDir : string) : M ConflictAction :=
  emit (EvPrompt label targetSkillDir) ;;;
  ret (inquirer_prompt P label targetSkillDir).

Definition copyDir (sourceDir targetDir : string) : M unit :=
  fs_mkdir targetDir ;;;
  fs_cp sourceDir targetDir.

Definition pathExists (targetPath : string) : M bool :=
  r <- catch_null (fs_access targetPath) ;;
  match r with
  | Some _ => ret true
  | None => ret false
  end.

(** The body of the loop over the targets. *)
Definition install_target (skillDir skillName : string) (force merge : bool)
  (target : InstallTarget) : M unit :=
  let targetRoot := baseDir target in
  let targetSkillDir := Path.join [targetRoot; skillName] in
  fs_mkdir targetRoot ;;;
  exists_ <- pathExists targetSkillDir ;;
  action <-
    (if exists_ && negb force && negb merge then
       promptConflictAction (label target) targetSkillDir
     else if exists_ && merge then ret merge_action
     else if exists_ && force then ret overwrite
     else ret overwrite) ;;
  match action with
  | skip =>
      emit (EvLog ("Skipped " ++ label target ++ ": " ++ targetSkillDir))
  | overwrite =>
      fs_rm targetSkillDir ;;;
      copyDir skillDir targetSkillDir ;;;
      emit (EvLog ("Installed (" ++ label target ++ ") -> " ++ targetSkillDir))
  | merge_action =>
      copyDir skillDir targetSkillDir ;;;
      emit (EvLog ("Merged (" ++ label target ++ ") -> " ++ targetSkillDir))
  end.

(** What [runInstall] does between [try] and [finally]. *)
Definition install_from (skillDir : string) (destinationProjectPath : option string)
  (force merge : bool) : M unit :=
  let skillFile := Path.join [skillDir; "SKILL.md"] in
  skillContents <- fs_readFile skillFile ;;
  frontmatter <-
    match matter P skillContents with
    | Some data => ret data
    | None => throw YAMLException
    end ;;
  lift (validateFrontmatter frontmatter skillFile) ;;;
  let skillName := Str.trim (JS.toString (JS.get frontmatter "name")) in
  let skillDirName := Path.basename skillDir in
  (if negb (String.eqb skillDirName skillName) then
     emit (EvWarn ("Warning: skill directory name " ++ Str.quoted skillDirName
                   ++ " does not match SKILL.md name " ++ Str.quoted skillName
                   ++ ". Using SKILL.md name for install."))
   else ret tt) ;;;
  let targets := getInstallTargets (env P) destinationProjectPath in
  for_of targets (install_target skillDir skillName force merge).

Definition runInstall (o : InstallOptions) : M unit :=
  if negb (Str.truthy_opt (skillPath o)) then
    (* [program.help({ error: true })] prints the usage and ends the process *)
    emit EvHelp ;;; exit 1%Z
  else if force o && merge o then
    throw (Error "--force and --merge cannot be used together")
  else
    let resolvedSkillPath := text_of (skillPath o) in
    let skillInput :=
      if isRepoLike resolvedSkillPath then resolvedSkillPath
      else Path.resolve (cwd (env P)) resolvedSkillPath in
    r <- resolveSkillSource skillInput (opt_subdir o) (opt_ref o) ;;
    try_finally
      (install_from (skillDir r) (destinationProjectPath o) (force o) (merge o))
      (match cleanup r with
       | Some c => c
       | None => ret tt
       end).

End Program.

(** ** Notions the properties are stated with *)

(** *** The validator's contract

    The specification has the validator fail on the first violation, in
    this order: (1) the frontmatter is missing or is not a key-value
    structure; (2) [name] is missing or blank; (3) [description] is
    missing or blank; (4) [metadata.version] is missing or blank, an
    absent [metadata] counting as a blank version; (5) [metadata.version]
    is not a valid semantic version.  A field is blank when nothing but
    white space is left of its text.

    [first_violation_by] is this order of checks, with the two notions
    it rests on left open: what a key-value structure is and what a
    semantic version is.  [first_violation] reads both as the
    specification words them: a key-value structure is a mapping of keys
    to values, and a semantic version is MAJOR.MINOR.PATCH with an
    optional pre-release and optional build metadata, by the rules of the
    Semantic Versioning standard.  The code tests other things in these
    two places: [key_value_structure] and [Semver.valid]. *)

Inductive violation : Type :=
| NoFrontmatter
| NoName
| NoDescription
| NoVersion
| BadVersion (version : string).

(** A mapping of keys to values: not a missing value, not a scalar, not
    a sequence. *)
Definition is_mapping (v : JS.value) : bool :=
  match v with
  | JS.VObj _ => true
  | _ => false
  end.

(** A JavaScript object (arrays included), as opposed to a missing value
    or a scalar. *)
Definition key_value_structure (v : JS.value) : bool :=
  match v with
  | JS.VObj _ | JS.VArr _ => true
  | _ => false
  end.

(** The text of a field: nothing for a missing (falsy) value. *)
Definition text (v : JS.value) : string :=
  if JS.truthy v then JS.toString v else "".

Definition blank (s : string) : bool := forallb Str.is_space (Str.chars s).

Definition version_field (frontmatter : JS.value) : JS.value :=
  JS.get (JS.get frontmatter "metadata") "version".

(** The grammar of the Semantic Versioning standard:
    [MAJOR.MINOR.PATCH], then an optional [-] and dot-separated
    pre-release identifiers, then an optional [+] and dot-separated build
    identifiers; numeric identifiers have no leading zero.  Nothing
    before MAJOR, no bound on length or on the numbers. *)
Definition semantic_version (s : string) : bool :=
  let (front, build) := Semver.cut "+" s in
  let (core, prerelease) := Semver.cut "-" front in
  match Str.split Str.dot core with
  | [major; minor; patch] =>
      forallb Semver.numeric_identifier [major; minor; patch]
  | _ => false
  end
  && Semver.optional
       (fun p => forallb Semver.prerelease_identifier (Str.split Str.dot p))
       prerelease
  && Semver.optional
       (fun b => forallb Semver.build_identifier (Str.split Str.dot b))
       build.

Definition first_violation_by (structure : JS.value -> bool)
  (semver : string -> bool) (frontmatter : JS.value) : option violation :=
  if negb (structure frontmatter) then Some NoFrontmatter
  else if blank (text (JS.get frontmatter "name")) then Some NoName
  else if blank (text (JS.get frontmatter "description")) then Some NoDescription
  else if blank (text (version_field frontmatter)) then Some NoVersion
  else
    let version := Str.trim (text (version_field frontmatter)) in
    if semver version then None else Some (BadVersion version).

(** The contract as the specification words it. *)
Definition first_violation : JS.value -> option violation :=
  first_violation_by is_mapping semantic_version.


Definition violation_message (v : violation) (skillFile : string) : string :=
  match v with
  | NoFrontmatter => "Missing YAML frontmatter in " ++ skillFile
  | NoName =>
      "Missing required frontmatter field " ++ Str.quoted "name"
      ++ " in " ++ skillFile
  | NoDescription =>
      "Missing required frontmatter field " ++ Str.quoted "description"
      ++ " in " ++ skillFile
  | NoVersion =>
      "Missing required frontmatter field " ++ Str.quoted "metadata.version"
      ++ " in " ++ skillFile
  | BadVersion version =>
      "Invalid semver " ++ Str.quoted "metadata.version" ++ " in " ++ skillFile
      ++ ": " ++ version
  end.

(** The validator raises an error. *)
Definition rejects (r : result unit) : Prop := exists e, r = Throw e.

(** A manifest header with the three required fields. *)
Definition manifest (name description version : JS.value) : JS.value :=
  JS.VObj [("name", name); ("description", description);
           ("metadata", JS.VObj [("version", version)])].

(** *** Paths

    A clean segment is a directory entry's name: not empty, not [.] or
    [..], without a slash.  [abs_path segs] is the absolute path with
    these segments, and [under root rel] the path [rel] below the
    absolute path [root]. *)

Definition clean (s : string) : bool :=
  Str.truthy s && negb (String.eqb s ".") && negb (String.eqb s "..")
  && Str.free Str.slash s.

Definition abs_path (segs : list string) : string := "/" ++ Str.join "/" segs.

Definition under (root rel : string) : string :=
  (if String.eqb root "/" then "" else root) ++ "/" ++ rel.

(** *** Well-formed file trees

    The names of a directory's entries are distinct, at every level. *)

Fixpoint distinct (l : list string) : bool :=
  match l with
  | [] => true
  | x :: r => negb (existsb (String.eqb x) r) && distinct r
  end.

Fixpoint names_distinct (n : Fs.node) : bool :=
  match n with
  | Fs.File _ => true
  | Fs.Dir es =>
      distinct (map fst es)
      && (fix all (es : list (string * Fs.node)) : bool :=
            match es with
            | [] => true
            | (_, c) :: r => names_distinct c && all r
            end) es
  end.

(** Induction over a tree and the entries of its directories. *)
Section NodeInduction.
Variable Q : Fs.node -> Prop.
Hypothesis on_file : forall data, Q (Fs.File data).
Hypothesis on_dir : forall es, Forall (fun e => Q (snd e)) es -> Q (Fs.Dir es).

Fixpoint node_induction (n : Fs.node) : Q n :=
  match n with
  | Fs.File data => on_file data
  | Fs.Dir es =>
      on_dir es
        ((fix all (es : list (string * Fs.node)) : Forall (fun e => Q (snd e)) es :=
            match es with
            | [] => Forall_nil _
            | e :: r => Forall_cons e (node_induction (snd e)) (all r)
            end) es)
  end.
End NodeInduction.

(** *** Trees that can be merged

    A source tree is compatible with a destination tree when no path is
    a directory in one and a regular file in the other: file lies on
    file, directory on directory, and what is missing at the destination
    fits anything. *)



(** *** Computations that do not end the process *)

Definition no_exit {A} (m : M A) : Prop :=
  forall w c w', m w <> (Exited c, w').

(** *** The clone directory

    The directory that [resolveSkillSource] makes and clones into. *)

Definition cloneDir_of (P : Platform) : string :=
  Path.join [tmpdir (env P); "agent-skill-"] ++ mkdtemp_suffix P.

(** *** Paths apart

    Two paths neither of which leads through the other. *)

Definition apart (p q : list string) : Prop :=
  Fs.is_prefix p q = false /\ Fs.is_prefix q p = false.

(** *** URL texts the model of [URL] is exact on

    Texts of ASCII characters without a percent sign and without an
    opening square bracket: a host that is percent-encoded,
    internationalised or an IPv6 literal is parsed by the [URL] class
    and is not modelled. *)


(** *** The git command line and its failures

    [clone --depth 1 [--branch <ref> --single-branch] <url> <dir>]; a
    failed git is one that could not be started or that exits with a
    code other than 0; the message is the one [runGit] rejects with. *)

Definition clone_args (repoUrl targetDir : string) (ref : option string)
  : list string :=
  (["clone"; "--depth"; "1"]
   ++ (if Str.truthy_opt ref then ["--branch"; text_of ref; "--single-branch"]
       else [])
   ++ [repoUrl; targetDir])%list.

Definition git_fails (g : GitResult) : bool :=
  match g with
  | Closed code _ => negb (Z.eqb code 0)
  | _ => true
  end.

Definition git_failure_message (g : GitResult) : string :=
  match g with
  | SpawnENOENT => "git is required to install from a repository"
  | SpawnError message => message
  | Closed code _ => "git exited with code " ++ JS.string_of_Z code
  end.

(** *** Calls a computation does not make

    A computation adds no call of a kind when the trace after it holds a
    call of that kind only if the trace before it did. *)

Definition adds_no (kind : event -> bool) {A} (m : M A) : Prop :=
  forall w, existsb kind (trace (snd (m w))) = existsb kind (trace w).

Definition is_prompt (e : event) : bool :=
  match e with
  | EvPrompt _ _ => true
  | _ => false
  end.

(** The calls that clone a repository: making the temporary directory
    and spawning a process. *)
Definition is_clone_call (e : event) : bool :=
  match e with
  | EvMkdtemp _ | EvSpawn _ _ => true
  | _ => false
  end.

(** *** A sample platform and world

    A working directory [/work] holding the skill [/work/skill], a home
    directory with one skill installed for one assistant, an empty
    temporary directory; the header of the sample manifest parses to
    [sample_frontmatter]; the operator skips every conflict. *)

Definition sample_frontmatter : JS.value :=
  manifest (JS.VStr "demo") (JS.VStr "A demo skill") (JS.VStr "1.0.0").

Definition sample_env : Env := mkEnv "/work" "/home/u" "/tmp" None.

Definition sample_platform (g : GitResult) : Platform :=
  mkPlatform sample_env "AbC123" (fun _ => g)
    (fun contents =>
       if String.eqb contents "manifest" then Some sample_frontmatter else None)
    (fun _ _ => skip).

Definition sample_fs : Fs.node :=
  Fs.Dir
    [("tmp", Fs.Dir []);
     ("home",
      Fs.Dir [("u",
        Fs.Dir [(".claude",
          Fs.Dir [("skills",
            Fs.Dir [("demo",
              Fs.Dir [("notes.txt", Fs.File "mine");
                      ("SKILL.md", Fs.File "old manifest")])])])])]);
     ("work",
      Fs.Dir [("skill",
        Fs.Dir [("SKILL.md", Fs.File "manifest");
                ("guide.md", Fs.File "guide")])])].

Definition sample_world : World := mkWorld sample_fs [].





(* ================================================================== *)
(** * Part II: properties *)
(* ================================================================== *)

(** ** Strings *)

Module StrFacts.
Import Str.

Lemma append_nil_r (s : string) : s ++ "" = s.
Proof. induction s; simpl; congruence. Qed.

Lemma append_assoc (a b c : string) : (a ++ b) ++ c = a ++ (b ++ c).
Proof. induction a; simpl; congruence. Qed.

Lemma truthy_true (s : string) : truthy s = true <-> s <> "".
Proof.
  unfold truthy. destruct (String.eqb_spec s ""); simpl; split; intros; congruence.
Qed.

Lemma truthy_false (s : string) : truthy s = false <-> s = "".
Proof.
  unfold truthy. destruct (String.eqb_spec s ""); simpl; split; intros; congruence.
Qed.

Lemma startsWith_truthy (s p : string) :
  p <> "" -> startsWith s p = true -> truthy s = true.
Proof.
  intros Hp H. apply truthy_true. intros ->.
  destruct p; [congruence | discriminate].
Qed.

Lemma endsWith_app (a b : string) : endsWith (a ++ b) b = true.
Proof.
  induction a as [|c a IH].
  - destruct b; cbn [append endsWith]; rewrite String.eqb_refl; reflexivity.
  - cbn [append endsWith]. rewrite IH. apply orb_true_r.
Qed.

Lemma split_not_nil (sep : ascii) (s : string) : split sep s <> [].
Proof.
  destruct s as [|c r]; simpl; [discriminate|].
  destruct (Ascii.eqb c sep); [discriminate|].
  destruct (split sep r); discriminate.
Qed.

(** Splitting distributes over a separator in the middle. *)
Lemma split_app (sep : ascii) (a b : string) :
  split sep (a ++ String sep b) = (split sep a ++ split sep b)%list.
Proof.
  induction a as [|c a IH]; simpl.
  - rewrite Ascii.eqb_refl. reflexivity.
  - destruct (Ascii.eqb c sep); [rewrite IH; reflexivity|].
    rewrite IH. pose proof (split_not_nil sep a) as Hn.
    destruct (split sep a); [congruence | reflexivity].
Qed.

Lemma split_free (sep : ascii) (s : string) :
  free sep s = true -> split sep s = [s].
Proof.
  unfold free. induction s as [|c r IH]; simpl; [reflexivity|].
  intros H. apply andb_true_iff in H as [Hc Hr].
  apply negb_true_iff in Hc. rewrite Hc, (IH Hr). reflexivity.
Qed.

Lemma split_cons (sep : ascii) (a b : string) :
  free sep a = true -> split sep (a ++ String sep b) = a :: split sep b.
Proof. intros H. rewrite split_app, (split_free _ _ H). reflexivity. Qed.

Lemma split_all_free (sep : ascii) (s : string) :
  Forall (fun x => free sep x = true) (split sep s).
Proof.
  induction s as [|c r IH]; simpl.
  - constructor; [reflexivity | constructor].
  - destruct (Ascii.eqb c sep) eqn:E.
    + constructor; [reflexivity | exact IH].
    + destruct (split sep r) as [|h t].
      * constructor; [|constructor]. unfold free. simpl. rewrite E. reflexivity.
      * inversion IH; subst. constructor; [|assumption].
        unfold free in *. simpl. rewrite E. simpl. assumption.
Qed.

Lemma join_cons (sep a : string) (l : list string) :
  l <> [] -> join sep (a :: l) = a ++ sep ++ join sep l.
Proof. destruct l; [congruence | reflexivity]. Qed.

Lemma join_split (sep : ascii) (s : string) :
  join (String sep "") (split sep s) = s.
Proof.
  induction s as [|c r IH]; simpl; [reflexivity|].
  destruct (Ascii.eqb_spec c sep) as [->|Hne].
  - rewrite join_cons by apply split_not_nil. rewrite IH. reflexivity.
  - pose proof (split_not_nil sep r) as Hn.
    destruct (split sep r) as [|h t]; [congruence|].
    destruct t as [|h' t'].
    + simpl in *. congruence.
    + change (join (String sep "") (String c h :: h' :: t'))
        with (String c (h ++ String sep "" ++ join (String sep "") (h' :: t'))).
      f_equal. exact IH.
Qed.

Lemma split_join (sep : ascii) (l : list string) :
  l <> [] -> Forall (fun x => free sep x = true) l ->
  split sep (join (String sep "") l) = l.
Proof.
  induction l as [|a l IH]; [congruence|].
  intros _ H. inversion H as [|? ? Ha Hl]; subst.
  destruct l as [|b l'].
  - simpl. apply split_free; assumption.
  - rewrite join_cons by discriminate.
    change (a ++ String sep "" ++ join (String sep "") (b :: l'))
      with (a ++ String sep (join (String sep "") (b :: l'))).
    rewrite split_cons by assumption.
    f_equal. apply IH; [discriminate | assumption].
Qed.

Lemma join_app (sep : string) (l m : list string) :
  l <> [] -> m <> [] ->
  join sep (l ++ m) = join sep l ++ sep ++ join sep m.
Proof.
  induction l as [|a l IH]; [congruence|].
  intros _ Hm. destruct l as [|b l'].
  - simpl app. rewrite join_cons by assumption. reflexivity.
  - change ((a :: b :: l') ++ m)%list with (a :: ((b :: l') ++ m))%list.
    rewrite join_cons by discriminate.
    rewrite IH by (discriminate || assumption).
    rewrite (join_cons sep a (b :: l')) by discriminate.
    rewrite !append_assoc. reflexivity.
Qed.

Lemma of_chars_chars (s : string) : of_chars (chars s) = s.
Proof. apply string_of_list_ascii_of_string. Qed.

Lemma chars_of_chars (l : list ascii) : chars (of_chars l) = l.
Proof. apply list_ascii_of_string_of_list_ascii. Qed.

Lemma dropWhile_nil_iff {A} (f : A -> bool) (l : list A) :
  dropWhile f l = [] <-> forallb f l = true.
Proof.
  induction l as [|x r IH]; simpl; [tauto|].
  destruct (f x); simpl; [exact IH|]. split; discriminate.
Qed.

Lemma dropWhile_all {A} (f : A -> bool) (l : list A) :
  forallb f l = true -> dropWhile f l = [].
Proof. apply dropWhile_nil_iff. Qed.

Lemma forallb_dropWhile {A} (f g : A -> bool) (l : list A) :
  forallb g l = true -> forallb g (dropWhile f l) = true.
Proof.
  induction l as [|x r IH]; simpl; [trivial|].
  intros H. apply andb_true_iff in H as [Hx Hr].
  destruct (f x); [auto | simpl; rewrite Hx, Hr; reflexivity].
Qed.

Lemma dropWhile_head {A} (f : A -> bool) (l : list A) x r :
  dropWhile f l = x :: r -> f x = false.
Proof.
  induction l as [|y t IH]; simpl; [discriminate|].
  destruct (f y) eqn:E; [exact IH|]. intros [= <- <-]. exact E.
Qed.

(** A string trims to nothing exactly when it is all white space. *)
Lemma trim_blank (s : string) :
  truthy (trim s) = negb (forallb is_space (chars s)).
Proof.
  unfold trim, trimEnd, trimStart. rewrite chars_of_chars.
  destruct (forallb is_space (chars s)) eqn:E; simpl.
  - rewrite (dropWhile_all _ _ E). reflexivity.
  - apply truthy_true.
    destruct (dropWhile is_space (chars s)) as [|x r] eqn:D.
    + apply dropWhile_nil_iff in D. congruence.
    + pose proof (dropWhile_head _ _ _ _ D) as Hx.
      intros Hnil.
      assert (Hr : rev (dropWhile is_space (rev (x :: r))) = []).
      { apply (f_equal chars) in Hnil. rewrite chars_of_chars in Hnil.
        exact Hnil. }
      apply (f_equal (@rev ascii)) in Hr. rewrite rev_involutive in Hr.
      simpl in Hr. apply dropWhile_nil_iff in Hr.
      rewrite forallb_app in Hr. simpl in Hr.
      rewrite Hx in Hr. rewrite andb_false_r in Hr. discriminate.
Qed.

End StrFacts.

(** ** The manifest validator *)

Lemma field_text_text (v : JS.value) : field_text v = Str.trim (text v).
Proof.
  unfold field_text, text, JS.or. destruct (JS.truthy v); reflexivity.
Qed.

Lemma truthy_field_text (v : JS.value) :
  Str.truthy (field_text v) = negb (blank (text v)).
Proof. rewrite field_text_text. apply StrFacts.trim_blank. Qed.

Lemma truthy_object (v : JS.value) :
  JS.truthy v && JS.typeof_object v = key_value_structure v.
Proof.
  destruct v as [| |[]| | | |]; simpl; rewrite ?andb_false_r, ?andb_true_r;
    reflexivity.
Qed.

(** The guarded read of [metadata.version] is the plain read. *)
Lemma guarded_version (fm : JS.value) :
  (match (let m := JS.get fm "metadata" in
          if JS.truthy m && JS.typeof_object m then Some m else None) with
   | Some m => JS.get m "version"
   | None => JS.VUndefined
   end) = version_field fm.
Proof.
  unfold version_field. cbv zeta.
  destruct (JS.get fm "metadata") as [| |[]| z | s | |]; try reflexivity.
  - simpl. rewrite andb_false_r. reflexivity.
  - simpl. rewrite andb_false_r. reflexivity.
Qed.

(** The validator, case by case: the order of checks of the contract,
    with the code's two tests (the form the lemmas below rewrite with). *)
Lemma validateFrontmatter_cases (fm : JS.value) (skillFile : string) :
  validateFrontmatter fm skillFile =
  match first_violation_by key_value_structure Semver.valid fm with
  | Some v => Throw (Error (violation_message v skillFile))
  | None => Ok tt
  end.
Proof.
  unfold validateFrontmatter, first_violation_by.
  rewrite <- negb_andb, truthy_object.
  destruct (key_value_structure fm); simpl; [|reflexivity].
  rewrite guarded_version, !truthy_field_text, !negb_involutive.
  repeat (match goal with
          | |- context [if blank ?x then _ else _] => destruct (blank x)
          end; [reflexivity|]).
  rewrite field_text_text. destruct (Semver.valid _); reflexivity.
Qed.




(** Where the code and the contract as the specification words it
    agree: on a frontmatter that is no sequence and whose trimmed
    version the two notions of a semantic version judge alike. *)
Lemma validateFrontmatter_meets_contract (fm : JS.value) (skillFile : string) :
  key_value_structure fm = is_mapping fm ->
  Semver.valid (Str.trim (text (version_field fm)))
  = semantic_version (Str.trim (text (version_field fm))) ->
  validateFrontmatter fm skillFile =
  match first_violation fm with
  | Some v => Throw (Error (violation_message v skillFile))
  | None => Ok tt
  end.
Proof.
  intros Hk Hv. rewrite validateFrontmatter_cases.
  unfold first_violation, first_violation_by. cbv zeta. rewrite Hk, Hv.
  reflexivity.
Qed.

(** With a key-value frontmatter and non-blank [name] and [description],
    the outcome is decided by the text of [metadata.version]. *)
Lemma validateFrontmatter_version (fm : JS.value) (skillFile : string) :
  key_value_structure fm = true ->
  blank (text (JS.get fm "name")) = false ->
  blank (text (JS.get fm "description")) = false ->
  validateFrontmatter fm skillFile =
  if blank (text (version_field fm)) then
    Throw (Error (violation_message NoVersion skillFile))
  else
    let version := Str.trim (text (version_field fm)) in
    if Semver.valid version then Ok tt
    else Throw (Error (violation_message (BadVersion version) skillFile)).
Proof.
  intros Hkv Hn Hd. rewrite validateFrontmatter_cases.
  unfold first_violation_by. rewrite Hkv, Hn, Hd. simpl.
  destruct (blank (text (version_field fm))); [reflexivity|].
  destruct (Semver.valid _); reflexivity.
Qed.

Lemma manifest_fields (n d v : JS.value) :
  key_value_structure (manifest n d v) = true
  /\ JS.get (manifest n d v) "name" = n
  /\ JS.get (manifest n d v) "description" = d
  /\ version_field (manifest n d v) = v.
Proof. repeat split; reflexivity. Qed.





(** C9, as stated, fails: the boolean [false] has the non-blank string
    form [false], and a manifest whose [name] is [false] is rejected. *)
Lemma false_name_rejected :
  blank (JS.toString (JS.VBool false)) = false
  /\ validateFrontmatter
       (manifest (JS.VBool false) (JS.VStr "A demo skill") (JS.VStr "1.0.0"))
       "SKILL.md"
     = Throw (Error (violation_message NoName "SKILL.md")).
Proof. split; reflexivity. Qed.

(** C9, amended.  The validator never requires [name], [description] or
    [metadata.version] to be strings: a value of any type is accepted
    whenever it is truthy (not [false], [0], [null], [undefined] or the
    empty string), its string form is non-blank and, for
    [metadata.version], the trimmed string form is a valid semantic
    version. *)
Theorem validateFrontmatter_coerces (frontmatter : JS.value) (skillFile : string) :
  key_value_structure frontmatter = true ->
  (forall field,
     In field [JS.get frontmatter "name"; JS.get frontmatter "description";
               version_field frontmatter] ->
     JS.truthy field = true /\ blank (JS.toString field) = false) ->
  Semver.valid (Str.trim (JS.toString (version_field frontmatter))) = true ->
  validateFrontmatter frontmatter skillFile = Ok tt.
Proof.
  intros Hkv Hf Hv.
  assert (Ht : forall field,
             In field [JS.get frontmatter "name"; JS.get frontmatter "description";
                       version_field frontmatter] ->
             text field = JS.toString field /\ blank (text field) = false).
  { intros f Hin. destruct (Hf f Hin) as [Ht Hb].
    unfold text. rewrite Ht. auto. }
  destruct (Ht (JS.get frontmatter "name")) as [_ Hn]; [simpl; auto|].
  destruct (Ht (JS.get frontmatter "description")) as [_ Hd]; [simpl; auto|].
  destruct (Ht (version_field frontmatter)) as [Ev Hb]; [simpl; auto|].
  rewrite validateFrontmatter_version by assumption.
  rewrite Hb. cbv zeta. rewrite Ev, Hv. reflexivity.
Qed.

Lemma validateFrontmatter_coerces_witness :
  validateFrontmatter
    (manifest (JS.VNum 123) (JS.VBool true) (JS.VArr [JS.VStr "1.0.0"]))
    "SKILL.md" = Ok tt.
Proof.
  apply validateFrontmatter_coerces.
  - reflexivity.
  - intros field [<-|[<-|[<-|[]]]]; split; reflexivity.
  - reflexivity.
Defined.

(** ** Repo-spec parsing *)

(** C4.  [parseRepoSpec] is a function of its input alone, and on the
    three inputs of the specification it answers: the repository, ref
    and subdirectory of a GitHub tree URL; the repository of a shorthand,
    with no ref and no subdirectory; nothing for a local path. *)
Theorem parseRepoSpec_examples :
  parseRepoSpec "https://github.com/o/r/tree/main/skills/x"
  = Some (mkRepoSpec "https://github.com/o/r.git" (Some "main") (Some "skills/x"))
  /\ parseRepoSpec "o/r"
     = Some (mkRepoSpec "https://github.com/o/r.git" None None)
  /\ parseRepoSpec "/local/path" = None.
Proof. repeat split; vm_compute; reflexivity. Qed.

(** ** The run *)

(** C8, amended.  An invocation that names a skill and sets both
    [--force] and [--merge] throws the configuration error at once: the
    world after the run is the world before it, so no file-system call
    was made, nothing was resolved from the source and no target was
    processed. *)
Theorem force_and_merge_rejected (P : Platform) (o : InstallOptions) (w : World) :
  Str.truthy_opt (skillPath o) = true ->
  force o = true ->
  merge o = true ->
  runInstall P o w
  = (Thrown (Error "--force and --merge cannot be used together"), w).
Proof.
  intros Hs Hf Hm. unfold runInstall. rewrite Hs, Hf, Hm. reflexivity.
Qed.

Lemma force_and_merge_rejected_witness :
  runInstall (sample_platform SpawnENOENT)
    (mkOptions (Some "skill") None None None true true) sample_world
  = (Thrown (Error "--force and --merge cannot be used together"), sample_world).
Proof.
  apply force_and_merge_rejected; reflexivity.
Defined.

(** C8, as stated for every invocation with both flags, fails: without
    a skill path the run never reaches the test of the flags.  It prints
    the usage and ends the process with status 1, and no configuration
    error is raised. *)
Lemma both_flags_without_skill_path :
  let o := mkOptions None None None None true true in
  force o = true /\ merge o = true
  /\ runInstall (sample_platform SpawnENOENT) o sample_world
     = (Exited 1, mkWorld sample_fs [EvHelp]).
Proof. repeat split; reflexivity. Qed.





(** [path.dirname] never answers the empty string. *)
Lemma dirname_truthy (path : string) : Str.truthy (Path.dirname path) = true.
Proof.
  destruct path as [|c0 rest]; [reflexivity|].
  unfold Path.dirname.
  destruct (Str.dropWhile Path.not_slash _) as [|x before].
  - destruct (Path.is_slash c0); reflexivity.
  - destruct before; [destruct (Path.is_slash c0)|]; reflexivity.
Qed.

Lemma split_slash_cons (a b : string) :
  Str.free Str.slash a = true ->
  Str.split Str.slash (a ++ "/" ++ b) = a :: Str.split Str.slash b.
Proof. intros H. apply (StrFacts.split_cons Str.slash a b H). Qed.

(** The segments of a GitHub path [/owner/repo/tree/ref/path]. *)
Lemma github_segments (owner repo kind gitref path : string) :
  Str.free Str.slash owner = true ->
  Str.free Str.slash repo = true ->
  Str.free Str.slash kind = true ->
  Str.free Str.slash gitref = true ->
  Str.split Str.slash
    (strip_leading_slash
       ("/" ++ owner ++ "/" ++ repo ++ "/" ++ kind ++ "/" ++ gitref ++ "/" ++ path))
  = owner :: repo :: kind :: gitref :: Str.split Str.slash path.
Proof.
  intros Ho Hr Hk Hg.
  change (strip_leading_slash ("/" ++ ?x)) with x.
  rewrite !split_slash_cons by assumption. reflexivity.
Qed.

(** What [parseGitHubUrl] reads from a tree or blob URL. *)
Lemma parseGitHubUrl_tree (url : Url.URL) (owner repo kind gitref path : string) :
  Url.pathname url
  = "/" ++ owner ++ "/" ++ repo ++ "/" ++ kind ++ "/" ++ gitref ++ "/" ++ path ->
  kind = "tree" \/ kind = "blob" ->
  Str.free Str.slash owner = true ->
  Str.free Str.slash repo = true ->
  Str.free Str.slash gitref = true ->
  parseGitHubUrl url
  = Some (mkRepoSpec ("https://github.com/" ++ owner ++ "/" ++ repo ++ ".git")
            (Some gitref)
            (Some (if Str.truthy path && Str.endsWith path "SKILL.md"
                   then Path.dirname path else path))).
Proof.
  intros Hp Hk Ho Hr Hg. unfold parseGitHubUrl. rewrite Hp.
  assert (Hkf : Str.free Str.slash kind = true)
    by (destruct Hk as [->| ->]; reflexivity).
  rewrite github_segments by assumption.
  cbn [List.length Nat.ltb Nat.leb nth nth_error skipn].
  assert (Hkind : is_tree_or_blob (Some kind) = true)
    by (destruct Hk as [->| ->]; reflexivity).
  rewrite Hkind.
  change (Str.join "/" (Str.split Str.slash path))
    with (Str.join (String Str.slash "") (Str.split Str.slash path)).
  rewrite StrFacts.join_split. reflexivity.
Qed.

(** C7.  When the caller supplies a [--subdir] and the input is a GitHub
    URL whose path carries a subdirectory after [/tree/<ref>/] or
    [/blob/<ref>/], source resolution throws the configuration error and
    leaves the world as it was: no temporary directory was made and no
    git was spawned. *)
Theorem ambiguous_subdir_rejected (P : Platform) (w : World)
  (input : string) (url : Url.URL)
  (owner repo kind gitref path subdir : string) (ref : option string) :
  Str.startsWith input "http://" || Str.startsWith input "https://" = true ->
  Url.URL_new input = Some url ->
  Url.hostname url = "github.com" ->
  Url.pathname url
  = "/" ++ owner ++ "/" ++ repo ++ "/" ++ kind ++ "/" ++ gitref ++ "/" ++ path ->
  kind = "tree" \/ kind = "blob" ->
  Str.free Str.slash owner = true ->
  Str.free Str.slash repo = true ->
  Str.free Str.slash gitref = true ->
  path <> "" ->
  subdir <> "" ->
  resolveSkillSource P input (Some subdir) ref w
  = (Thrown (Error "Provide either --subdir or a repo URL with a path, not both"),
     w).
Proof.
  intros Hs Hu Hh Hp Hk Ho Hr Hg Hpath Hsub.
  assert (Ht : Str.truthy input = true).
  { apply orb_true_iff in Hs as [H|H];
      eapply StrFacts.startsWith_truthy; try exact H; discriminate. }
  unfold resolveSkillSource, parseRepoSpec.
  rewrite Ht, Hs, Hu, Hh, String.eqb_refl. cbn [negb].
  rewrite (parseGitHubUrl_tree url owner repo kind gitref path) by assumption.
  cbn [Str.truthy_opt].
  apply StrFacts.truthy_true in Hsub. rewrite Hsub.
  apply StrFacts.truthy_true in Hpath. rewrite Hpath.
  destruct (Str.endsWith path "SKILL.md"); cbn [andb].
  - rewrite dirname_truthy. reflexivity.
  - rewrite Hpath. reflexivity.
Qed.

Lemma ambiguous_subdir_rejected_witness :
  resolveSkillSource (sample_platform SpawnENOENT)
    "https://github.com/o/r/tree/main/skills/x" (Some "skills/y") None
    sample_world
  = (Thrown (Error "Provide either --subdir or a repo URL with a path, not both"),
     sample_world).
Proof.
  apply (ambiguous_subdir_rejected (sample_platform SpawnENOENT) sample_world
           "https://github.com/o/r/tree/main/skills/x"
           (Url.mkURL "github.com" "/o/r/tree/main/skills/x")
           "o" "r" "tree" "main" "skills/x" "skills/y" None);
    try reflexivity; try discriminate.
  left; reflexivity.
Defined.

(** ** Paths *)

Module PathFacts.
Import Str StrFacts.

Lemma clean_inv (s : string) :
  clean s = true ->
  s <> "" /\ String.eqb s "" = false /\ String.eqb s "." = false
  /\ String.eqb s ".." = false /\ free slash s = true.
Proof.
  unfold clean, truthy. intros H.
  repeat (apply andb_true_iff in H as [H ?]).
  rewrite !negb_true_iff in *. repeat split; auto.
  intros ->. discriminate.
Qed.

Lemma step_clean (b : bool) (kept : list string) (s : string) :
  clean s = true -> Path.step b kept s = s :: kept.
Proof.
  intros H. destruct (clean_inv s H) as (_ & E0 & E1 & E2 & _).
  unfold Path.step. rewrite E0, E1, E2. reflexivity.
Qed.

Lemma step_empty (b : bool) (kept : list string) : Path.step b kept "" = kept.
Proof. reflexivity. Qed.

Lemma fold_clean (b : bool) (l acc : list string) :
  Forall (fun s => clean s = true) l ->
  fold_left (Path.step b) l acc = (rev l ++ acc)%list.
Proof.
  revert acc. induction l as [|s l IH]; intros acc H; [reflexivity|].
  inversion H; subst. simpl. rewrite step_clean by assumption.
  rewrite IH by assumption. rewrite <- app_assoc. reflexivity.
Qed.

(** Clean segments at the end of a path survive normalisation. *)
Lemma normalizeSegments_app (b : bool) (l m : list string) :
  Forall (fun s => clean s = true) m ->
  Path.normalizeSegments b (l ++ m) = (Path.normalizeSegments b l ++ m)%list.
Proof.
  intros H. unfold Path.normalizeSegments.
  rewrite fold_left_app, fold_clean by assumption.
  rewrite rev_app_distr, rev_involutive. reflexivity.
Qed.

Lemma normalizeSegments_clean (b : bool) (l : list string) :
  Forall (fun s => clean s = true) l -> Path.normalizeSegments b l = l.
Proof.
  intros H. unfold Path.normalizeSegments.
  rewrite fold_clean by assumption. rewrite app_nil_r. apply rev_involutive.
Qed.

Lemma normalizeSegments_empty_first (b : bool) (l : list string) :
  Path.normalizeSegments b ("" :: l) = Path.normalizeSegments b l.
Proof. reflexivity. Qed.

Lemma normalizeSegments_empty_last (b : bool) (l : list string) :
  Path.normalizeSegments b (l ++ [""]) = Path.normalizeSegments b l.
Proof.
  unfold Path.normalizeSegments. rewrite fold_left_app. reflexivity.
Qed.

Lemma step_keeps_clean (kept : list string) (s : string) :
  Forall (fun x => clean x = true) kept ->
  free slash s = true ->
  Forall (fun x => clean x = true) (Path.step false kept s).
Proof.
  intros Hk Hs. unfold Path.step.
  destruct (String.eqb s "") eqn:E0; [exact Hk|].
  destruct (String.eqb s ".") eqn:E1; [exact Hk|]. cbn [orb].
  destruct (String.eqb s "..") eqn:E2.
  - destruct kept as [|top below]; [constructor|].
    destruct (String.eqb top ".."); [exact Hk|].
    inversion Hk; assumption.
  - constructor; [|exact Hk].
    unfold clean, truthy. rewrite E0, E1, E2, Hs. reflexivity.
Qed.

Lemma fold_keeps_clean (l acc : list string) :
  Forall (fun x => clean x = true) acc ->
  Forall (fun x => free slash x = true) l ->
  Forall (fun x => clean x = true) (fold_left (Path.step false) l acc).
Proof.
  revert acc. induction l as [|s l IH]; intros acc Ha Hl; [exact Ha|].
  inversion Hl; subst. simpl. apply IH; [|assumption].
  apply step_keeps_clean; assumption.
Qed.

(** Normalising an absolute path leaves clean segments only. *)
Lemma normalized_clean (s : string) :
  Forall (fun x => clean x = true)
         (Path.normalizeSegments false (split slash s)).
Proof.
  unfold Path.normalizeSegments. apply Forall_rev.
  apply fold_keeps_clean; [constructor | apply split_all_free].
Qed.

Lemma clean_all_free (l : list string) :
  Forall (fun x => clean x = true) l -> Forall (fun x => free slash x = true) l.
Proof.
  intros H. eapply Forall_impl; [|exact H].
  intros x Hx. apply (clean_inv x Hx).
Qed.

Lemma join_clean_nonempty (l : list string) :
  l <> [] -> Forall (fun x => clean x = true) l -> Str.join "/" l <> "".
Proof.
  destruct l as [|a l]; [congruence|]. intros _ H. inversion H; subst.
  destruct (clean_inv a) as (Ha & _); [assumption|].
  destruct l as [|b l']; [exact Ha|].
  rewrite join_cons by discriminate. destruct a; [congruence | discriminate].
Qed.

(** The segments of [abs_path segs], for clean segments. *)
Lemma split_abs_path (N : list string) :
  Forall (fun x => clean x = true) N ->
  Path.normalizeSegments false (split slash (abs_path N)) = N.
Proof.
  intros H. unfold abs_path.
  change (split slash ("/" ++ Str.join "/" N))
    with ("" :: split slash (Str.join (String slash "") N)).
  rewrite normalizeSegments_empty_first.
  destruct N as [|a N']; [reflexivity|].
  rewrite split_join; [|discriminate | apply clean_all_free; assumption].
  apply normalizeSegments_clean; assumption.
Qed.

Lemma isAbsolute_cons (q : string) :
  Path.isAbsolute q = true -> exists r, q = String slash r.
Proof.
  unfold Path.isAbsolute.
  destruct q as [|c r]; simpl; [discriminate|].
  destruct (Ascii.eqb_spec c "/") as [->|]; [|discriminate].
  intros _. exists r. reflexivity.
Qed.

(** [path.resolve] of an absolute path is the absolute path of its
    normalised segments. *)
Lemma resolve_absolute (cwd q : string) :
  Path.isAbsolute q = true ->
  Path.resolve cwd q
  = abs_path (Path.normalizeSegments false (split slash q)).
Proof.
  intros Hq. destruct (isAbsolute_cons q Hq) as [r ->].
  unfold Path.resolve. rewrite Hq.
  change (String.eqb (String slash r) "") with false. cbv iota.
  unfold Path.normalizeString, abs_path.
  change (String slash r ++ "/") with (String slash r ++ String slash "").
  rewrite split_app. change (split slash "") with [""].
  rewrite normalizeSegments_empty_last. reflexivity.
Qed.

(** [path.resolve] answers an absolute path of clean segments. *)
Lemma resolve_abs_path (cwd p : string) :
  exists N, Forall (fun x => clean x = true) N /\ Path.resolve cwd p = abs_path N.
Proof.
  unfold Path.resolve, Path.normalizeString, abs_path.
  eexists. split; [|reflexivity]. apply normalized_clean.
Qed.

Lemma resolve_isAbsolute (cwd p : string) :
  Path.isAbsolute (Path.resolve cwd p) = true.
Proof. unfold Path.resolve, Path.isAbsolute. cbv zeta. reflexivity. Qed.

(** [path.resolve] is idempotent. *)
Lemma resolve_idempotent (cwd cwd' p : string) :
  Path.resolve cwd' (Path.resolve cwd p) = Path.resolve cwd p.
Proof.
  destruct (resolve_abs_path cwd p) as (N & HN & E).
  rewrite resolve_absolute by apply resolve_isAbsolute.
  rewrite E, split_abs_path by assumption. reflexivity.
Qed.

Lemma eqb_slash_app (x : string) :
  x <> "" -> forall c, String.eqb (String c x) "/" = false.
Proof.
  intros Hx c. simpl. destruct (Ascii.eqb c "/"); [|reflexivity].
  destruct x; [congruence | reflexivity].
Qed.

Lemma endsWith_slash_app (a b : string) :
  b <> "" -> endsWith (a ++ b) "/" = endsWith b "/".
Proof.
  intros Hb. induction a as [|c a IH]; [reflexivity|].
  cbn [append endsWith]. rewrite IH.
  rewrite eqb_slash_app; [reflexivity|].
  destruct a; simpl; [exact Hb | discriminate].
Qed.

Lemma endsWith_slash_free (b : string) :
  free slash b = true -> endsWith b "/" = false.
Proof.
  unfold free. induction b as [|c r IH]; [reflexivity|].
  simpl. intros H. apply andb_true_iff in H as [Hc Hr].
  apply negb_true_iff in Hc. rewrite (IH Hr), orb_false_r.
  change (Ascii.eqb c "/") with (Ascii.eqb c slash). rewrite Hc. reflexivity.
Qed.

(** A path that ends in a clean segment has no trailing separator. *)
Lemma join_no_trailing_slash (pre : string) (rel : list string) :
  rel <> [] -> Forall (fun x => clean x = true) rel ->
  endsWith (pre ++ Str.join "/" rel) "/" = false.
Proof.
  intros Hne H.
  destruct (exists_last Hne) as (rel' & z & ->).
  apply Forall_app in H as [_ Hz]. inversion Hz as [|? ? Hc _]; subst.
  destruct (clean_inv z Hc) as (Hz0 & _ & _ & _ & Hzf).
  destruct rel' as [|a rel''].
  - simpl. rewrite endsWith_slash_app by assumption.
    apply endsWith_slash_free; assumption.
  - rewrite join_app by discriminate.
    rewrite <- !append_assoc.
    rewrite endsWith_slash_app by assumption.
    apply endsWith_slash_free; assumption.
Qed.

Lemma filter_truthy_clean (rel : list string) :
  Forall (fun x => clean x = true) rel -> filter Str.truthy rel = rel.
Proof.
  induction rel as [|a rel IH]; intros H; [reflexivity|].
  inversion H as [|? ? Ha Hr]; subst. simpl.
  destruct (clean_inv a Ha) as (Ha0 & _).
  apply truthy_true in Ha0. rewrite Ha0, IH by assumption. reflexivity.
Qed.

(** [path.join] of an absolute path and clean segments. *)
Lemma join_absolute (q : string) (rel : list string) :
  Path.isAbsolute q = true ->
  rel <> [] -> Forall (fun x => clean x = true) rel ->
  Path.join (q :: rel)
  = abs_path (Path.normalizeSegments false (split slash q) ++ rel).
Proof.
  intros Hq Hne Hrel. destruct (isAbsolute_cons q Hq) as [r ->].
  unfold Path.join. cbn [filter].
  change (Str.truthy (String slash r)) with true. cbv iota.
  rewrite filter_truthy_clean by assumption.
  rewrite join_cons by assumption.
  change (String.eqb (String slash r ++ "/" ++ Str.join "/" rel) "") with false.
  cbv iota. unfold Path.normalize.
  change (String.eqb (String slash r ++ "/" ++ Str.join "/" rel) "") with false.
  change (Path.isAbsolute (String slash r ++ "/" ++ Str.join "/" rel)) with true.
  cbv iota zeta. cbn [negb].
  replace (String slash r ++ "/" ++ Str.join "/" rel)
    with ((String slash r ++ "/") ++ Str.join "/" rel)
    by (rewrite append_assoc; reflexivity).
  rewrite join_no_trailing_slash by assumption.
  unfold Path.normalizeString.
  replace ((String slash r ++ "/") ++ Str.join "/" rel)
    with (String slash r ++ String slash (Str.join (String slash "") rel))
    by (rewrite append_assoc; reflexivity).
  rewrite split_app.
  rewrite split_join by (assumption || apply clean_all_free; assumption).
  rewrite normalizeSegments_app by assumption.
  set (N := Path.normalizeSegments false (split slash (String slash r))).
  assert (HN : Forall (fun x => clean x = true) N) by apply normalized_clean.
  assert (Hj : Str.join "/" (N ++ rel) <> "").
  { apply join_clean_nonempty.
    - destruct N; [assumption | discriminate].
    - apply Forall_app; split; assumption. }
  destruct (String.eqb_spec (Str.join "/" (N ++ rel)) ""); [congruence|].
  reflexivity.
Qed.

Lemma abs_path_under (N rel : list string) :
  Forall (fun x => clean x = true) N -> rel <> [] ->
  abs_path (N ++ rel) = under (abs_path N) (Str.join "/" rel).
Proof.
  intros HN Hrel. unfold under, abs_path.
  destruct N as [|a N']; [reflexivity|].
  assert (Hj : Str.join "/" (a :: N') <> "")
    by (apply join_clean_nonempty; [discriminate | assumption]).
  rewrite join_app by (discriminate || assumption).
  destruct (String.eqb_spec ("/" ++ Str.join "/" (a :: N')) "/") as [E|_].
  - exfalso. apply Hj.
    change (String "/" (Str.join "/" (a :: N')) = String "/" "") in E.
    injection E as E. exact E.
  - rewrite !append_assoc. reflexivity.
Qed.

(** Joining clean segments to an absolute path puts them under its
    resolved form. *)
Lemma join_under (cwd q : string) (rel : list string) :
  Path.isAbsolute q = true ->
  rel <> [] -> Forall (fun x => clean x = true) rel ->
  Path.join (q :: rel) = under (Path.resolve cwd q) (Str.join "/" rel).
Proof.
  intros Hq Hne Hrel.
  rewrite join_absolute, (resolve_absolute cwd) by assumption.
  apply abs_path_under; [apply normalized_clean | assumption].
Qed.

Lemma under_isAbsolute (root rel : string) :
  Path.isAbsolute root = true -> Path.isAbsolute (under root rel) = true.
Proof.
  intros H. unfold under. destruct (String.eqb root "/"); [reflexivity|].
  destruct (isAbsolute_cons root H) as [r ->]. reflexivity.
Qed.

End PathFacts.

(** ** Install targets *)

Lemma clean_names :
  Forall (fun x => clean x = true) [".codex"; ".claude"; ".gemini"; "skills"].
Proof. repeat constructor. Qed.

(** A configuration directory's [skills] under an absolute base. *)
Lemma join_config_skills (cwd q config : string) :
  Path.isAbsolute q = true ->
  clean config = true ->
  Path.join [q; config; "skills"]
  = under (Path.resolve cwd q) (config ++ "/skills").
Proof.
  intros Hq Hc.
  rewrite (PathFacts.join_under cwd); [reflexivity | assumption | discriminate |].
  repeat constructor. assumption.
Qed.

Lemma join_skills (cwd q : string) :
  Path.isAbsolute q = true ->
  Path.join [q; "skills"] = under (Path.resolve cwd q) "skills".
Proof.
  intros Hq.
  rewrite (PathFacts.join_under cwd); [reflexivity | assumption | discriminate |].
  repeat constructor.
Qed.

Lemma join_join_skills (cwd q config : string) :
  Path.isAbsolute q = true ->
  clean config = true ->
  Path.join [Path.join [q; config]; "skills"]
  = under (Path.resolve cwd q) (config ++ "/skills").
Proof.
  intros Hq Hc.
  assert (Hl : Forall (fun x => clean x = true) [config]) by (repeat constructor; assumption).
  assert (Hs : Forall (fun x => clean x = true) ["skills"]) by (repeat constructor).
  rewrite (PathFacts.join_absolute q [config]) by (assumption || discriminate).
  set (N := Path.normalizeSegments false (Str.split Str.slash q)).
  assert (HN : Forall (fun x => clean x = true) N) by apply PathFacts.normalized_clean.
  assert (HNc : Forall (fun x => clean x = true) (N ++ [config]))
    by (apply Forall_app; split; assumption).
  rewrite (PathFacts.join_absolute (abs_path (N ++ [config])) ["skills"])
    by (reflexivity || assumption || discriminate).
  rewrite PathFacts.split_abs_path by assumption.
  rewrite <- app_assoc. cbn [app].
  rewrite (PathFacts.resolve_absolute cwd) by assumption. fold N.
  rewrite PathFacts.abs_path_under by (assumption || discriminate).
  reflexivity.
Qed.

Lemma under_skills_suffix (root config : string) :
  Str.endsWith (under root (config ++ "/skills")) "/skills" = true.
Proof.
  unfold under.
  rewrite <- !StrFacts.append_assoc. apply StrFacts.endsWith_app.
Qed.

Lemma under_skills (root : string) :
  Str.endsWith (under root "skills") "/skills" = true.
Proof.
  unfold under. change ("/" ++ "skills") with "/skills".
  apply StrFacts.endsWith_app.
Qed.

(** C5.  The target resolver is a total function.  With a project path
    (a non-empty string) it answers three targets, for codex, claude and
    gemini in this order, each [skills] directory of the assistant's
    configuration directory under the resolved absolute project path.
    Without one it answers three global targets in the same order: the
    codex base is [skills] under the resolved [CODEX_HOME] when that
    variable is set (non-empty) and [.codex/skills] under the home
    directory otherwise; the claude and gemini bases are
    [.claude/skills] and [.gemini/skills] under the home directory.
    Every base ends in [/skills]. *)
Theorem getInstallTargets_spec (e : Env) (destination : option string) :
  (Str.truthy_opt destination = false -> Path.isAbsolute (homedir e) = true) ->
  let root := Path.resolve (cwd e) (text_of destination) in
  let home := Path.resolve (cwd e) (homedir e) in
  let codex :=
    if Str.truthy_opt (CODEX_HOME e)
    then under (Path.resolve (cwd e) (text_of (CODEX_HOME e))) "skills"
    else under home ".codex/skills" in
  getInstallTargets e destination
  = (if Str.truthy_opt destination then
       [ mkTarget "codex-project" (under root ".codex/skills");
         mkTarget "claude-project" (under root ".claude/skills");
         mkTarget "gemini-project" (under root ".gemini/skills") ]
     else
       [ mkTarget "codex-user" codex;
         mkTarget "claude-user" (under home ".claude/skills");
         mkTarget "gemini-user" (under home ".gemini/skills") ])
  /\ Forall (fun t => Str.endsWith (baseDir t) "/skills" = true)
            (getInstallTargets e destination)
  /\ List.length (getInstallTargets e destination) = 3.
Proof.
  intros Hhome root home codex.
  assert (E : getInstallTargets e destination
              = (if Str.truthy_opt destination then
                   [ mkTarget "codex-project" (under root ".codex/skills");
                     mkTarget "claude-project" (under root ".claude/skills");
                     mkTarget "gemini-project" (under root ".gemini/skills") ]
                 else
                   [ mkTarget "codex-user" codex;
                     mkTarget "claude-user" (under home ".claude/skills");
                     mkTarget "gemini-user" (under home ".gemini/skills") ])).
  { unfold getInstallTargets.
    destruct (Str.truthy_opt destination) eqn:Hd.
    - assert (Hp : match destination with Some p => p | None => "" end
                   = text_of destination) by reflexivity.
      rewrite Hp. fold root.
      rewrite !(join_config_skills (cwd e))
        by (apply PathFacts.resolve_isAbsolute || reflexivity).
      unfold root. rewrite PathFacts.resolve_idempotent. reflexivity.
    - specialize (Hhome eq_refl).
      rewrite !(join_config_skills (cwd e)) by (assumption || reflexivity).
      fold home. do 2 f_equal. unfold codex.
      destruct (CODEX_HOME e) as [h|]; cbn [Str.truthy_opt text_of].
      + destruct (Str.truthy h).
        * rewrite (join_skills (cwd e)) by apply PathFacts.resolve_isAbsolute.
          rewrite PathFacts.resolve_idempotent. reflexivity.
        * rewrite (join_join_skills (cwd e)) by (assumption || reflexivity).
          reflexivity.
      + rewrite (join_join_skills (cwd e)) by (assumption || reflexivity).
        reflexivity. }
  split; [exact E|]. rewrite E.
  destruct (Str.truthy_opt destination).
  - split; [|reflexivity].
    repeat constructor; cbn [baseDir];
      apply (under_skills_suffix root ".codex")
      || apply (under_skills_suffix root ".claude")
      || apply (under_skills_suffix root ".gemini").
  - split; [|reflexivity].
    repeat constructor; cbn [baseDir];
      try (apply (under_skills_suffix home ".claude")
           || apply (under_skills_suffix home ".gemini")).
    unfold codex. destruct (Str.truthy_opt (CODEX_HOME e)).
    + apply under_skills.
    + apply (under_skills_suffix home ".codex").
Qed.

Lemma getInstallTargets_spec_witness :
  getInstallTargets sample_env None
  = [ mkTarget "codex-user" "/home/u/.codex/skills";
      mkTarget "claude-user" "/home/u/.claude/skills";
      mkTarget "gemini-user" "/home/u/.gemini/skills" ]
  /\ Forall (fun t => Str.endsWith (baseDir t) "/skills" = true)
            (getInstallTargets sample_env None)
  /\ List.length (getInstallTargets sample_env None) = 3.
Proof.
  apply (getInstallTargets_spec sample_env None). reflexivity.
Defined.

(** ** File trees *)

Module FsFacts.
Import Fs.

Lemma lookup_cons (k k' : string) (n : node) (es : list (string * node)) :
  lookup k ((k', n) :: es) = if String.eqb k k' then Some n else lookup k es.
Proof. reflexivity. Qed.

Lemma lookup_entry_set_same (k : string) (n : node) (es : list (string * node)) :
  lookup k (entry_set k n es) = Some n.
Proof.
  induction es as [|[k' x] r IH]; simpl.
  - unfold lookup. simpl. rewrite String.eqb_refl. reflexivity.
  - destruct (String.eqb_spec k k') as [->|Hne].
    + rewrite lookup_cons, String.eqb_refl. reflexivity.
    + rewrite lookup_cons. destruct (String.eqb_spec k k'); [congruence | exact IH].
Qed.

Lemma lookup_entry_set_other (k k' : string) (n : node) (es : list (string * node)) :
  k <> k' -> lookup k (entry_set k' n es) = lookup k es.
Proof.
  intros Hne. induction es as [|[k0 x] r IH]; simpl.
  - rewrite lookup_cons. destruct (String.eqb_spec k k'); [congruence | reflexivity].
  - destruct (String.eqb_spec k' k0) as [->|Hne'].
    + rewrite !lookup_cons. destruct (String.eqb_spec k k0); [congruence | reflexivity].
    + rewrite !lookup_cons, IH. reflexivity.
Qed.

Lemma entry_set_lookup_id (k : string) (n : node) (es : list (string * node)) :
  lookup k es = Some n -> entry_set k n es = es.
Proof.
  induction es as [|[k0 x] r IH]; [discriminate|].
  rewrite lookup_cons. simpl. destruct (String.eqb_spec k k0) as [->|Hne].
  - intros [= ->]. reflexivity.
  - intros H. rewrite (IH H). reflexivity.
Qed.

Lemma lookup_none_notin (k : string) (es : list (string * node)) :
  existsb (String.eqb k) (map fst es) = false -> lookup k es = None.
Proof.
  induction es as [|[k0 x] r IH]; [reflexivity|].
  simpl. rewrite lookup_cons. destruct (String.eqb k k0); [discriminate | exact IH].
Qed.

(** The directory case of [cp_node] is the loop [cp_entries]. *)
Lemma cp_node_dir (es : list (string * node)) (dest : option node) :
  cp_node (Dir es) dest =
  match dest with
  | Some (File d) => (File d, false)
  | _ =>
      let ds := match dest with
                | Some (Dir ds) => ds
                | _ => []
                end in
      (Dir (fst (cp_entries es ds)), snd (cp_entries es ds))
  end.
Proof.
  assert (H : forall ds,
             (let '(ds', ok) := cp_entries es ds in (Dir ds', ok))
             = (Dir (fst (cp_entries es ds)), snd (cp_entries es ds))).
  { intros ds. destruct (cp_entries es ds); reflexivity. }
  destruct dest as [[d|ds]|]; [reflexivity | exact (H ds) | exact (H [])].
Qed.

Lemma cp_entries_cons (k : string) (s : node) (rest ds : list (string * node)) :
  cp_entries ((k, s) :: rest) ds =
  let r := cp_node s (lookup k ds) in
  if snd r then cp_entries rest (entry_set k (fst r) ds)
  else (entry_set k (fst r) ds, false).
Proof.
  cbn [cp_entries]. destruct (cp_node s (lookup k ds)) as [d' ok]. reflexivity.
Qed.




Lemma names_distinct_dir (es : list (string * node)) :
  names_distinct (Dir es) = true ->
  distinct (map fst es) = true
  /\ Forall (fun e => names_distinct (snd e) = true) es.
Proof.
  cbn [names_distinct]. intros H. apply andb_true_iff in H as [Hd Ha].
  split; [exact Hd|]. clear Hd.
  induction es as [|[k c] r IH]; [constructor|].
  apply andb_true_iff in Ha as [Hc Hr]. constructor; [exact Hc | exact (IH Hr)].
Qed.



(** *** Paths into a tree *)

Lemma find_app (a b : list string) (t : node) :
  find (a ++ b) t =
  match find a t with
  | Some n => find b n
  | None => None
  end.
Proof.
  revert t. induction a as [|k a IH]; intros t; [reflexivity|].
  destruct t as [d|es]; [reflexivity|]. simpl.
  destruct (lookup k es); [apply IH | reflexivity].
Qed.


Lemma file_at_app_none (a b : list string) (t : node) :
  find a t = None -> file_at (a ++ b) t = None.
Proof. intros H. unfold file_at. rewrite find_app, H. reflexivity. Qed.

(** [mkdir -p] of a directory that exists changes nothing. *)
Lemma mkdirp_existing (p : list string) (t : node) (ds : list (string * node)) :
  find p t = Some (Dir ds) -> mkdirp p t = Some t.
Proof.
  revert t. induction p as [|k p IH]; intros t H.
  - simpl in H. injection H as ->. reflexivity.
  - destruct t as [d|es]; [discriminate|]. simpl in H |- *.
    destruct (lookup k es) as [c|] eqn:Hl; [|discriminate].
    rewrite (IH c H), (entry_set_lookup_id _ _ _ Hl). reflexivity.
Qed.

(** What lies above an existing node is a directory. *)
Lemma find_removelast (p : list string) (t n : node) :
  p <> [] -> find p t = Some n ->
  exists es, find (removelast p) t = Some (Dir es).
Proof.
  revert t. induction p as [|k p IH]; intros t Hne H; [congruence|].
  destruct t as [d|es]; [discriminate|].
  destruct p as [|k' p'].
  - exists es. reflexivity.
  - change (removelast (k :: k' :: p')) with (k :: removelast (k' :: p')).
    simpl in H |- *. destruct (lookup k es) as [c|]; [|discriminate].
    apply IH; [discriminate | exact H].
Qed.

Lemma write_below (k k' : string) (p : list string) (new : node)
  (es : list (string * node)) :
  write (k :: k' :: p) new (Dir es) =
  match lookup k es with
  | Some c =>
      match write (k' :: p) new c with
      | Some c' => Some (Dir (entry_set k c' es))
      | None => None
      end
  | None => None
  end.
Proof. reflexivity. Qed.

(** Writing over an existing node puts the new node there. *)
Lemma write_existing (p : list string) (new t n : node) :
  find p t = Some n ->
  exists t', write p new t = Some t'
             /\ forall q, find (p ++ q) t' = find q new.
Proof.
  revert t. induction p as [|k p IH]; intros t H.
  - exists new. split; reflexivity.
  - destruct t as [d|es]; [discriminate|]. simpl in H.
    destruct (lookup k es) as [c|] eqn:Hl; [|discriminate].
    destruct p as [|k' p'].
    + exists (Dir (entry_set k new es)). split; [reflexivity|].
      intros q. simpl. rewrite lookup_entry_set_same. reflexivity.
    + destruct (IH c H) as (c' & Hw & Hf).
      exists (Dir (entry_set k c' es)). split.
      * rewrite write_below, Hl, Hw. reflexivity.
      * intros q. cbn [app find]. rewrite lookup_entry_set_same. apply Hf.
Qed.

Lemma lookup_names_distinct (k : string) (es : list (string * node)) (c : node) :
  Forall (fun e => names_distinct (snd e) = true) es ->
  lookup k es = Some c -> names_distinct c = true.
Proof.
  induction es as [|[k0 x] r IH]; [discriminate|].
  intros H. inversion H; subst. rewrite lookup_cons.
  destruct (String.eqb k k0); [intros [= <-]; assumption | apply IH; assumption].
Qed.

(** Every node of a well-formed tree is well-formed. *)
Lemma find_names_distinct (p : list string) (t n : node) :
  names_distinct t = true -> find p t = Some n -> names_distinct n = true.
Proof.
  revert t. induction p as [|k p IH]; intros t Hwf H.
  - simpl in H. injection H as <-. exact Hwf.
  - destruct t as [d|es]; [discriminate|]. simpl in H.
    destruct (lookup k es) as [c|] eqn:Hl; [|discriminate].
    apply names_distinct_dir in Hwf as [_ Hall].
    apply (IH c); [|exact H]. eapply lookup_names_distinct; eassumption.
Qed.

End FsFacts.

(** ** Merging into an existing directory *)


(** ** The temporary clone directory *)

(** C1.  The claim fails on the code when source resolution itself
    fails: [resolveSkillSource] makes the temporary directory and hands
    out the cleanup only on success, so [runInstall] has nothing to run
    in its [finally].  With a git that exits with 128, and with a clone
    that holds no [SKILL.md], the run throws, no [rm] is in the trace and
    the temporary directory is still on disk. *)
Theorem clone_dir_left_behind :
  let o := mkOptions (Some "o/r") None None None false false in
  let failed := runInstall (sample_platform (Closed 128 [])) o sample_world in
  let empty := runInstall (sample_platform (Closed 0 [])) o sample_world in
  (fst failed = Thrown (Error "git exited with code 128")
   /\ trace (snd failed)
      = [EvMkdtemp "/tmp/agent-skill-";
         EvSpawn "git" ["clone"; "--depth"; "1"; "https://github.com/o/r.git";
                        "/tmp/agent-skill-AbC123"]]
   /\ Fs.find ["tmp"; "agent-skill-AbC123"] (fs (snd failed)) = Some (Fs.Dir []))
  /\ (fst empty = Thrown (Error "SKILL.md not found in /tmp/agent-skill-AbC123")
      /\ trace (snd empty)
         = [EvMkdtemp "/tmp/agent-skill-";
            EvSpawn "git" ["clone"; "--depth"; "1"; "https://github.com/o/r.git";
                           "/tmp/agent-skill-AbC123"];
            EvStat "/tmp/agent-skill-AbC123/SKILL.md"]
      /\ Fs.find ["tmp"; "agent-skill-AbC123"] (fs (snd empty)) = Some (Fs.Dir [])).
Proof. vm_compute. repeat split; reflexivity. Qed.

(** *** Cleanup once the source is resolved *)

Create HintDb no_exit.

Lemma no_exit_ret {A} (a : A) : no_exit (ret a).
Proof. intros w c w'. unfold ret. congruence. Qed.

Lemma no_exit_throw {A} (e : exn) : no_exit (@throw A e).
Proof. intros w c w'. unfold throw. congruence. Qed.

Lemma no_exit_emit (e : event) : no_exit (emit e).
Proof. intros w c w'. unfold emit. congruence. Qed.

Lemma no_exit_get_fs : no_exit get_fs.
Proof. intros w c w'. unfold get_fs. congruence. Qed.

Lemma no_exit_set_fs (n : Fs.node) : no_exit (set_fs n).
Proof. intros w c w'. unfold set_fs. congruence. Qed.

Lemma no_exit_lift {A} (r : result A) : no_exit (lift r).
Proof. destruct r; [apply no_exit_ret | apply no_exit_throw]. Qed.

Lemma no_exit_bind {A B} (m : M A) (k : A -> M B) :
  no_exit m -> (forall a, no_exit (k a)) -> no_exit (bind m k).
Proof.
  intros Hm Hk w c w'. unfold bind.
  destruct (m w) as [[a|e|c0] w1] eqn:E.
  - apply Hk.
  - congruence.
  - exfalso. exact (Hm _ _ _ E).
Qed.

Lemma no_exit_catch_null {A} (m : M A) : no_exit m -> no_exit (catch_null m).
Proof.
  intros Hm w c w'. unfold catch_null.
  destruct (m w) as [[a|e|c0] w1] eqn:E; try congruence.
  exfalso. exact (Hm _ _ _ E).
Qed.

Lemma no_exit_for_of {A} (l : list A) (body : A -> M unit) :
  (forall a, no_exit (body a)) -> no_exit (for_of l body).
Proof.
  intros H. induction l as [|x r IH]; simpl.
  - apply no_exit_ret.
  - apply no_exit_bind; [apply H | intros _; exact IH].
Qed.

#[export] Hint Resolve no_exit_ret no_exit_throw no_exit_emit no_exit_get_fs
  no_exit_set_fs no_exit_lift : no_exit.

(** Splits a computation along its binds and its case distinctions. *)
Ltac no_exit_steps :=
  repeat first
    [ progress auto with no_exit
    | apply no_exit_bind; [|intro]
    | apply no_exit_catch_null
    | match goal with
      | |- no_exit (match ?x with _ => _ end) => destruct x
      end ].

Section NoExit.
Variable P : Platform.

Lemma no_exit_fs_mkdir (path : string) : no_exit (fs_mkdir P path).
Proof. unfold fs_mkdir. no_exit_steps. Qed.

Lemma no_exit_fs_rm (path : string) : no_exit (fs_rm P path).
Proof. unfold fs_rm. no_exit_steps. Qed.

Lemma no_exit_fs_access (path : string) : no_exit (fs_access P path).
Proof. unfold fs_access. no_exit_steps. Qed.

Lemma no_exit_fs_readFile (path : string) : no_exit (fs_readFile P path).
Proof. unfold fs_readFile. no_exit_steps. Qed.

Lemma no_exit_fs_cp (src dest : string) : no_exit (fs_cp P src dest).
Proof. unfold fs_cp. no_exit_steps. Qed.

Hint Resolve no_exit_fs_mkdir no_exit_fs_rm no_exit_fs_access
  no_exit_fs_readFile no_exit_fs_cp : no_exit.

Lemma no_exit_install_target (skillDir skillName : string) (force merge : bool)
  (target : InstallTarget) :
  no_exit (install_target P skillDir skillName force merge target).
Proof.
  unfold install_target, pathExists, promptConflictAction, copyDir.
  no_exit_steps.
Qed.

(** The body of the [try] never ends the process. *)
Lemma no_exit_install_from (skillDir : string) (destination : option string)
  (force merge : bool) :
  no_exit (install_from P skillDir destination force merge).
Proof.
  unfold install_from. no_exit_steps.
  apply no_exit_for_of. intros t. apply no_exit_install_target.
Qed.

End NoExit.

Lemma bind_returned {A B} (m : M A) (k : A -> M B) (w w' : World) (b : B) :
  bind m k w = (Returned b, w') ->
  exists a w1, m w = (Returned a, w1) /\ k a w1 = (Returned b, w').
Proof.
  unfold bind. destruct (m w) as [[a|e|c] w1]; try discriminate.
  intros H. exists a, w1. auto.
Qed.

Lemma lookup_entry_del (k : string) (es : list (string * Fs.node)) :
  Fs.lookup k (Fs.entry_del k es) = None.
Proof.
  induction es as [|[k0 x] r IH]; [reflexivity|]. simpl.
  destruct (String.eqb k k0) eqn:E; [exact IH|].
  rewrite FsFacts.lookup_cons, E. exact IH.
Qed.

(** After [rm -rf] nothing is found at the path. *)
Lemma find_remove (p : list string) (t : Fs.node) :
  p <> [] -> Fs.find p (Fs.remove p t) = None.
Proof.
  revert t. induction p as [|k p IH]; intros t Hne; [congruence|].
  destruct t as [d|es]; [reflexivity|].
  destruct p as [|k' p'].
  - simpl. rewrite lookup_entry_del. reflexivity.
  - change (Fs.remove (k :: k' :: p') (Fs.Dir es))
      with (match Fs.lookup k es with
            | Some c => Fs.Dir (Fs.entry_set k (Fs.remove (k' :: p') c) es)
            | None => Fs.Dir es
            end).
    destruct (Fs.lookup k es) as [c|] eqn:Hl.
    + cbn [Fs.find]. rewrite FsFacts.lookup_entry_set_same.
      apply IH. discriminate.
    + cbn [Fs.find]. rewrite Hl. reflexivity.
Qed.

Section Cleanup.
Variable P : Platform.

Lemma fs_mkdtemp_returned (prefix path : string) (w w1 : World) :
  fs_mkdtemp P prefix w = (Returned path, w1) ->
  path = prefix ++ mkdtemp_suffix P /\ seg P path <> [].
Proof.
  unfold fs_mkdtemp, bind, emit, get_fs, set_fs, ret, throw. cbn [fs trace].
  destruct (Fs.find (seg P (prefix ++ mkdtemp_suffix P)) (fs w)) eqn:Hf;
    [discriminate|].
  destruct (Fs.find (removelast _) (fs w)) as [[d|es]|]; try discriminate.
  destruct (Fs.write _ _ (fs w)); [|discriminate].
  intros [= <- _]. split; [reflexivity|].
  intros E. rewrite E in Hf. discriminate.
Qed.

(** A repository source that resolves hands out the removal of its clone
    directory as the cleanup. *)
Lemma resolveSkillSource_cleanup (input : string) (subdir ref : option string)
  (spec : RepoSpec) (r : ResolveResult) (w w1 : World) :
  parseRepoSpec input = Some spec ->
  resolveSkillSource P input subdir ref w = (Returned r, w1) ->
  cleanup r = Some (fs_rm P (cloneDir_of P)) /\ seg P (cloneDir_of P) <> [].
Proof.
  intros Hp. unfold resolveSkillSource. rewrite Hp.
  destruct spec as [url rref rsub].
  destruct (Str.truthy_opt subdir && Str.truthy_opt rsub); [discriminate|].
  intros H.
  apply bind_returned in H as (dir & w2 & Hmk & H).
  apply fs_mkdtemp_returned in Hmk as [-> Hseg].
  apply bind_returned in H as (_ & w3 & _ & H).
  apply bind_returned in H as (sd & w4 & _ & H).
  injection H as <- _. split; [reflexivity | exact Hseg].
Qed.

Lemma parseRepoSpec_isRepoLike (input : string) (spec : RepoSpec) :
  parseRepoSpec input = Some spec -> isRepoLike input = true.
Proof.
  unfold parseRepoSpec, isRepoLike.
  destruct (negb (Str.truthy input)); [discriminate|].
  destruct (Str.startsWith input "http://" || Str.startsWith input "https://");
    [reflexivity|].
  destruct (Str.endsWith input ".git"); [reflexivity|].
  destruct (shorthand_test input); [reflexivity | discriminate].
Qed.

(** X13.  Once a repository source has been resolved, the run ends with
    the removal of the clone directory, however the installation went:
    the last platform call is that [rm], and nothing is found at the
    clone directory afterwards. *)
Lemma clone_dir_removed_after_resolution (o : InstallOptions) (w w1 : World)
  (input : string) (spec : RepoSpec) (r : ResolveResult) :
  skillPath o = Some input ->
  force o && merge o = false ->
  parseRepoSpec input = Some spec ->
  resolveSkillSource P input (opt_subdir o) (opt_ref o) w = (Returned r, w1) ->
  Fs.find (seg P (cloneDir_of P)) (fs (snd (runInstall P o w))) = None
  /\ exists tr, trace (snd (runInstall P o w)) = (tr ++ [EvRm (cloneDir_of P)])%list.
Proof.
  intros Hs Hfm Hp Hr.
  destruct (resolveSkillSource_cleanup _ _ _ _ _ _ _ Hp Hr) as [Hc Hseg].
  pose proof (parseRepoSpec_isRepoLike _ _ Hp) as Hlike.
  assert (Ht : Str.truthy input = true).
  { unfold isRepoLike in Hlike. destruct (Str.truthy input); [reflexivity|].
    discriminate. }
  assert (E : runInstall P o w
              = try_finally
                  (install_from P (skillDir r) (destinationProjectPath o)
                     (force o) (merge o))
                  (fs_rm P (cloneDir_of P)) w1).
  { unfold runInstall. rewrite Hs, Hfm. cbn [Str.truthy_opt text_of].
    rewrite Ht, Hlike. cbn [negb]. unfold bind. rewrite Hr, Hc. reflexivity. }
  rewrite E. unfold try_finally.
  destruct (install_from P (skillDir r) (destinationProjectPath o) (force o)
              (merge o) w1) as [[u|e|c] w2] eqn:Hbody.
  - cbn. split; [apply find_remove; exact Hseg | eexists; reflexivity].
  - cbn. split; [apply find_remove; exact Hseg | eexists; reflexivity].
  - exfalso. exact (no_exit_install_from P _ _ _ _ _ _ _ Hbody).
Qed.

End Cleanup.

(* ================================================================== *)
(** * Part III: further properties of the code *)
(* ================================================================== *)

(** ** Classifying the input *)

(** X1.  [isRepoLike] and [parseRepoSpec] agree except on one kind of
    input: an input is repository-like exactly when it has a repo spec,
    or starts with [http://] or [https://] and is refused by the URL
    class. *)
Theorem isRepoLike_parseRepoSpec (input : string) :
  isRepoLike input = true <->
  (exists spec, parseRepoSpec input = Some spec)
  \/ (Str.startsWith input "http://" || Str.startsWith input "https://" = true
      /\ Url.URL_new input = None).
Proof.
  unfold isRepoLike, parseRepoSpec.
  destruct (Str.truthy input) eqn:Ht; cbn [negb].
  - destruct (Str.startsWith input "http://" || Str.startsWith input "https://").
    + split; [intros _ | reflexivity].
      destruct (Url.URL_new input) as [url|]; [left | right; auto].
      destruct (if String.eqb (Url.hostname url) "github.com"
                then parseGitHubUrl url else None); eexists; reflexivity.
    + destruct (Str.endsWith input ".git").
      * split; [intros _; left; eexists; reflexivity | reflexivity].
      * destruct (shorthand_test input).
        -- split; [intros _; left; eexists; reflexivity | reflexivity].
        -- split; [discriminate|].
           intros [[spec H] | [H _]]; discriminate.
  - apply StrFacts.truthy_false in Ht. subst input.
    split; [discriminate|]. intros [[spec H] | [H _]]; discriminate.
Qed.

Lemma shorthand_test_absolute (x : string) :
  shorthand_test (String Str.slash x) = false.
Proof.
  unfold shorthand_test.
  change (Str.split Str.slash (String Str.slash x))
    with ("" :: Str.split Str.slash x).
  destruct (Str.split Str.slash x) as [|b [|c l]]; reflexivity.
Qed.

(** X2.  An absolute path is repository-like exactly when it ends in
    [.git], and then its repo spec is the path itself as an opaque clone
    URL: no ref, no subdirectory.  ([runInstall] resolves an input that
    is not repository-like to an absolute path before it asks
    [parseRepoSpec].) *)
Theorem absolute_path_repo_spec (path : string) :
  Path.isAbsolute path = true ->
  isRepoLike path = Str.endsWith path ".git"
  /\ parseRepoSpec path
     = if Str.endsWith path ".git" then Some (mkRepoSpec path None None)
       else None.
Proof.
  intros H. destruct (PathFacts.isAbsolute_cons path H) as [x ->].
  unfold isRepoLike, parseRepoSpec. rewrite shorthand_test_absolute.
  change (Str.truthy (String Str.slash x)) with true.
  change (Str.startsWith (String Str.slash x) "http://") with false.
  change (Str.startsWith (String Str.slash x) "https://") with false.
  cbn [negb orb].
  destruct (Str.endsWith (String Str.slash x) ".git"); split; reflexivity.
Qed.

Lemma absolute_path_repo_spec_witness :
  isRepoLike "/work/bare.git" = true
  /\ parseRepoSpec "/work/bare.git"
     = Some (mkRepoSpec "/work/bare.git" None None).
Proof. apply (absolute_path_repo_spec "/work/bare.git"). reflexivity. Defined.

(** X3.  A GitHub URL whose path is [/owner/repo] has the clone URL
    [https://github.com/owner/repo.git], whatever scheme, query or
    fragment the input had, and neither ref nor subdirectory.  The
    suffix is appended without looking at [repo]: a URL that already
    ends in [.git] gets a second one. *)
Theorem github_repo_url (input : string) (url : Url.URL) (owner repo : string) :
  Str.startsWith input "http://" || Str.startsWith input "https://" = true ->
  Url.URL_new input = Some url ->
  Url.hostname url = "github.com" ->
  Url.pathname url = "/" ++ owner ++ "/" ++ repo ->
  Str.free Str.slash owner = true ->
  Str.free Str.slash repo = true ->
  parseRepoSpec input
  = Some (mkRepoSpec ("https://github.com/" ++ owner ++ "/" ++ repo ++ ".git")
            None None).
Proof.
  intros Hs Hu Hh Hp Ho Hr.
  assert (Ht : Str.truthy input = true).
  { apply orb_true_iff in Hs as [H|H];
      eapply StrFacts.startsWith_truthy; try exact H; discriminate. }
  unfold parseRepoSpec. rewrite Ht, Hs, Hu, Hh, String.eqb_refl. cbn [negb].
  unfold parseGitHubUrl. rewrite Hp.
  change (strip_leading_slash ("/" ++ ?x)) with x.
  rewrite split_slash_cons, (StrFacts.split_free _ _ Hr) by assumption.
  reflexivity.
Qed.

Lemma github_repo_url_witness :
  parseRepoSpec "http://github.com/o/r.git?tab=readme#top"
  = Some (mkRepoSpec "https://github.com/o/r.git.git" None None).
Proof.
  apply (github_repo_url "http://github.com/o/r.git?tab=readme#top"
           (Url.mkURL "github.com" "/o/r.git") "o" "r.git"); reflexivity.
Defined.

(** ** Parent directory and last segment *)

Module DirFacts.
Import Str StrFacts.

Lemma chars_app (a b : string) : chars (a ++ b) = (chars a ++ chars b)%list.
Proof. induction a as [|c a IH]; simpl; [reflexivity | rewrite IH; reflexivity]. Qed.

Lemma dropWhile_stop {A} (f : A -> bool) (x : A) (r : list A) :
  f x = false -> dropWhile f (x :: r) = x :: r.
Proof. intros H. simpl. rewrite H. reflexivity. Qed.

Lemma dropWhile_app_all {A} (f : A -> bool) (l m : list A) :
  forallb f l = true -> dropWhile f (l ++ m) = dropWhile f m.
Proof.
  induction l as [|x l IH]; [reflexivity|]. simpl.
  intros H. apply andb_true_iff in H as [Hx Hl]. rewrite Hx. exact (IH Hl).
Qed.

Lemma takeWhile_app_all {A} (f : A -> bool) (l m : list A) :
  forallb f l = true -> takeWhile f (l ++ m) = (l ++ takeWhile f m)%list.
Proof.
  induction l as [|x l IH]; [reflexivity|]. simpl.
  intros H. apply andb_true_iff in H as [Hx Hl]. rewrite Hx, (IH Hl). reflexivity.
Qed.

Lemma forallb_rev {A} (f : A -> bool) (l : list A) :
  forallb f (rev l) = forallb f l.
Proof.
  induction l as [|x l IH]; [reflexivity|]. simpl.
  rewrite forallb_app, IH. simpl. rewrite andb_true_r. apply andb_comm.
Qed.

(** The characters of a slash-free, non-empty name, last first: none is a
    slash and there is a first one. *)
Lemma rev_name (f : string) :
  f <> "" -> free slash f = true ->
  forallb Path.not_slash (rev (chars f)) = true
  /\ exists x r, rev (chars f) = x :: r /\ Path.is_slash x = false.
Proof.
  intros Hne Hfree.
  assert (Hall : forallb Path.not_slash (rev (chars f)) = true)
    by (rewrite forallb_rev; exact Hfree).
  split; [exact Hall|].
  destruct (rev (chars f)) as [|x r] eqn:E.
  - exfalso. apply Hne. apply (f_equal (@rev ascii)) in E.
    rewrite rev_involutive in E. simpl in E.
    rewrite <- (of_chars_chars f), E. reflexivity.
  - exists x, r. split; [reflexivity|].
    simpl in Hall. apply andb_true_iff in Hall as [Hx _].
    unfold Path.not_slash in Hx. apply negb_true_iff in Hx. exact Hx.
Qed.

(** The scan of [dirname] and [basename] over [rest/name], from the end. *)
Lemma rev_chars_child (d f : string) :
  rev (chars (d ++ "/" ++ f))
  = (rev (chars f) ++ slash :: rev (chars d))%list.
Proof.
  rewrite chars_app. change (chars ("/" ++ f)) with (slash :: chars f).
  rewrite rev_app_distr. simpl. rewrite <- app_assoc. reflexivity.
Qed.

(** [path.dirname] of a name under a directory is the directory. *)
Lemma dirname_child (d f : string) :
  d <> "" -> d <> "/" -> f <> "" -> free slash f = true ->
  Path.dirname (d ++ "/" ++ f) = d.
Proof.
  intros Hd Hroot Hf Hfree.
  destruct d as [|c0 d']; [congruence|].
  destruct (rev_name f Hf Hfree) as (Hall & x & r & E & Hx).
  change (String c0 d' ++ "/" ++ f) with (String c0 (d' ++ "/" ++ f)).
  unfold Path.dirname. rewrite rev_chars_child, E.
  change ((x :: r) ++ slash :: rev (chars d'))%list
    with (x :: (r ++ slash :: rev (chars d')))%list.
  rewrite (dropWhile_stop Path.is_slash) by exact Hx.
  change (x :: (r ++ slash :: rev (chars d')))%list
    with ((x :: r) ++ slash :: rev (chars d'))%list.
  rewrite <- E, dropWhile_app_all by exact Hall.
  rewrite (dropWhile_stop Path.not_slash) by reflexivity.
  destruct d' as [|c1 d''].
  - simpl. destruct (Path.is_slash c0) eqn:Hc; [|reflexivity].
    exfalso. apply Hroot. unfold Path.is_slash in Hc.
    apply Ascii.eqb_eq in Hc. subst c0. reflexivity.
  - destruct (rev (chars (String c1 d''))) as [|y ys] eqn:Er.
    + exfalso. apply (f_equal (@List.length ascii)) in Er.
      rewrite length_rev in Er. discriminate.
    + rewrite <- Er, rev_involutive, of_chars_chars. reflexivity.
Qed.

(** [path.dirname] of a name under the root is the root. *)
Lemma dirname_root_child (f : string) :
  f <> "" -> free slash f = true -> Path.dirname ("/" ++ f) = "/".
Proof.
  intros Hf Hfree.
  destruct (rev_name f Hf Hfree) as (Hall & x & r & E & Hx).
  change ("/" ++ f) with (String slash f).
  unfold Path.dirname. rewrite E.
  rewrite (dropWhile_stop Path.is_slash) by exact Hx.
  rewrite <- E, <- (app_nil_r (rev (chars f))), dropWhile_app_all by exact Hall.
  reflexivity.
Qed.

(** [path.basename] of a name under a directory is the name. *)
Lemma basename_child (d f : string) :
  f <> "" -> free slash f = true -> Path.basename (d ++ "/" ++ f) = f.
Proof.
  intros Hf Hfree.
  destruct (rev_name f Hf Hfree) as (Hall & x & r & E & Hx).
  unfold Path.basename. rewrite rev_chars_child, E.
  change ((x :: r) ++ slash :: rev (chars d))%list
    with (x :: (r ++ slash :: rev (chars d)))%list.
  rewrite (dropWhile_stop Path.is_slash) by exact Hx.
  change (x :: (r ++ slash :: rev (chars d)))%list
    with ((x :: r) ++ slash :: rev (chars d))%list.
  rewrite <- E, takeWhile_app_all by exact Hall.
  simpl takeWhile. rewrite app_nil_r, rev_involutive. apply of_chars_chars.
Qed.

End DirFacts.

(** X4.  A GitHub tree or blob URL that points at a manifest,
    [.../<dir>/SKILL.md], is read as pointing at the directory: the repo
    spec carries the ref and [<dir>] as the subdirectory. *)
Theorem manifest_url_names_its_directory (input : string) (url : Url.URL)
  (owner repo kind gitref dir : string) :
  Str.startsWith input "http://" || Str.startsWith input "https://" = true ->
  Url.URL_new input = Some url ->
  Url.hostname url = "github.com" ->
  Url.pathname url
  = "/" ++ owner ++ "/" ++ repo ++ "/" ++ kind ++ "/" ++ gitref ++ "/"
    ++ (dir ++ "/" ++ "SKILL.md") ->
  kind = "tree" \/ kind = "blob" ->
  Str.free Str.slash owner = true ->
  Str.free Str.slash repo = true ->
  Str.free Str.slash gitref = true ->
  dir <> "" -> dir <> "/" ->
  parseRepoSpec input
  = Some (mkRepoSpec ("https://github.com/" ++ owner ++ "/" ++ repo ++ ".git")
            (Some gitref) (Some dir)).
Proof.
  intros Hs Hu Hh Hp Hk Ho Hr Hg Hd Hroot.
  assert (Ht : Str.truthy input = true).
  { apply orb_true_iff in Hs as [H|H];
      eapply StrFacts.startsWith_truthy; try exact H; discriminate. }
  unfold parseRepoSpec. rewrite Ht, Hs, Hu, Hh, String.eqb_refl. cbn [negb].
  rewrite (parseGitHubUrl_tree url owner repo kind gitref
             (dir ++ "/" ++ "SKILL.md")) by assumption.
  assert (Hends : Str.endsWith (dir ++ "/" ++ "SKILL.md") "SKILL.md" = true).
  { rewrite <- StrFacts.append_assoc. apply StrFacts.endsWith_app. }
  assert (Htr : Str.truthy (dir ++ "/" ++ "SKILL.md") = true).
  { apply StrFacts.truthy_true. destruct dir; discriminate. }
  rewrite Hends, Htr. cbn [andb].
  rewrite DirFacts.dirname_child by (assumption || discriminate || reflexivity).
  reflexivity.
Qed.

Lemma manifest_url_names_its_directory_witness :
  parseRepoSpec "https://github.com/o/r/blob/main/skills/x/SKILL.md"
  = Some (mkRepoSpec "https://github.com/o/r.git" (Some "main") (Some "skills/x")).
Proof.
  apply (manifest_url_names_its_directory
           "https://github.com/o/r/blob/main/skills/x/SKILL.md"
           (Url.mkURL "github.com" "/o/r/blob/main/skills/x/SKILL.md")
           "o" "r" "blob" "main" "skills/x");
    try reflexivity; try discriminate.
  right; reflexivity.
Defined.

(** ** More on the manifest validator *)

Module TrimFacts.
Import Str StrFacts.

Lemma dropWhile_snoc {A} (f : A -> bool) (l : list A) (x : A) :
  f x = false -> dropWhile f (l ++ [x]) = (dropWhile f l ++ [x])%list.
Proof.
  intros Hx. induction l as [|a l IH]; simpl; [rewrite Hx; reflexivity|].
  destruct (f a); [exact IH | reflexivity].
Qed.

Lemma dropWhile_twice {A} (f : A -> bool) (l : list A) :
  dropWhile f (dropWhile f l) = dropWhile f l.
Proof.
  induction l as [|a l IH]; [reflexivity|]. simpl.
  destruct (f a) eqn:E; [exact IH | simpl; rewrite E; reflexivity].
Qed.

(** What is left of a string after [trim]: nothing, when it is blank;
    otherwise characters that start and end with no white space. *)
Lemma trim_shape (s : string) :
  (blank s = true /\ trim s = "")
  \/ (blank s = false
      /\ exists x R, is_space x = false /\ dropWhile is_space R = R
                     /\ trim s = of_chars (x :: rev R)).
Proof.
  unfold blank, trim, trimEnd, trimStart. rewrite chars_of_chars.
  destruct (forallb is_space (chars s)) eqn:E.
  - left. rewrite (dropWhile_all _ _ E). auto.
  - right. split; [reflexivity|].
    destruct (dropWhile is_space (chars s)) as [|x r] eqn:D.
    + apply dropWhile_nil_iff in D. congruence.
    + pose proof (dropWhile_head _ _ _ _ D) as Hx.
      exists x, (dropWhile is_space (rev r)).
      split; [exact Hx|]. split; [apply dropWhile_twice|].
      simpl rev. rewrite dropWhile_snoc by exact Hx.
      rewrite rev_app_distr. reflexivity.
Qed.

Lemma trim_fixed (x : ascii) (R : list ascii) :
  is_space x = false -> dropWhile is_space R = R ->
  trim (of_chars (x :: rev R)) = of_chars (x :: rev R).
Proof.
  intros Hx HR. unfold trim, trimEnd, trimStart.
  rewrite !chars_of_chars. simpl dropWhile. rewrite Hx.
  simpl rev. rewrite rev_involutive.
  rewrite dropWhile_snoc, HR by exact Hx.
  rewrite rev_app_distr. reflexivity.
Qed.

(** [trim] is idempotent. *)
Lemma trim_idempotent (s : string) : trim (trim s) = trim s.
Proof.
  destruct (trim_shape s) as [[_ ->] | (_ & x & R & Hx & HR & ->)].
  - reflexivity.
  - apply trim_fixed; assumption.
Qed.

(** Trimming does not change whether a string is blank. *)
Lemma blank_trim (s : string) : blank (trim s) = blank s.
Proof.
  destruct (trim_shape s) as [[-> ->] | (-> & x & R & Hx & HR & ->)].
  - reflexivity.
  - unfold blank. rewrite chars_of_chars. simpl. rewrite Hx. reflexivity.
Qed.

End TrimFacts.

Lemma text_string (s : string) : text (JS.VStr s) = s.
Proof.
  unfold text. simpl. destruct (Str.truthy s) eqn:E; [reflexivity|].
  apply StrFacts.truthy_false in E. congruence.
Qed.

Lemma first_violation_manifest (n d v : string) :
  first_violation_by key_value_structure Semver.valid
    (manifest (JS.VStr n) (JS.VStr d) (JS.VStr v))
  = if blank n then Some NoName
    else if blank d then Some NoDescription
    else if blank v then Some NoVersion
    else if Semver.valid (Str.trim v) then None
    else Some (BadVersion (Str.trim v)).
Proof.
  destruct (manifest_fields (JS.VStr n) (JS.VStr d) (JS.VStr v))
    as (Hkv & En & Ed & Ev).
  unfold first_violation_by. rewrite Hkv, En, Ed, Ev, !text_string. reflexivity.
Qed.

(** X5.  White space around [name], [description] and
    [metadata.version] never changes what the validator answers: a
    manifest and the manifest with its three fields trimmed get the same
    verdict, with the same message. *)
Theorem validateFrontmatter_ignores_padding (name description version : string)
  (skillFile : string) :
  validateFrontmatter
    (manifest (JS.VStr name) (JS.VStr description) (JS.VStr version)) skillFile
  = validateFrontmatter
      (manifest (JS.VStr (Str.trim name)) (JS.VStr (Str.trim description))
                (JS.VStr (Str.trim version)))
      skillFile.
Proof.
  rewrite !validateFrontmatter_cases, !first_violation_manifest.
  rewrite !TrimFacts.blank_trim, TrimFacts.trim_idempotent. reflexivity.
Qed.

Module VersionFacts.
Import Str StrFacts.

Lemma free_dropWhile (c : ascii) (f : ascii -> bool) (l : list ascii) :
  forallb (fun x => negb (Ascii.eqb x c)) l = true ->
  forallb (fun x => negb (Ascii.eqb x c)) (dropWhile f l) = true.
Proof. apply forallb_dropWhile. Qed.

(** [trim] adds no character. *)
Lemma free_trim (c : ascii) (s : string) :
  free c s = true -> free c (trim s) = true.
Proof.
  unfold free, trim, trimEnd, trimStart. rewrite !chars_of_chars. intros H.
  rewrite DirFacts.forallb_rev. apply free_dropWhile.
  rewrite DirFacts.forallb_rev. apply free_dropWhile. exact H.
Qed.

Lemma free_cut_fst (c x : ascii) (s : string) :
  free c s = true -> free c (fst (Semver.cut x s)) = true.
Proof.
  unfold free. induction s as [|a r IH]; [reflexivity|].
  simpl. intros H. apply andb_true_iff in H as [Ha Hr].
  destruct (Ascii.eqb a x); [reflexivity|].
  specialize (IH Hr). destruct (Semver.cut x r) as [p q].
  simpl in *. rewrite Ha, IH. reflexivity.
Qed.

Lemma free_tail (c a : ascii) (r : string) :
  free c (String a r) = true -> free c r = true.
Proof.
  unfold free. simpl. intros H. apply andb_true_iff in H as [_ H]. exact H.
Qed.

(** A version text without a dot is no semantic version. *)
Lemma valid_needs_dots (version : string) :
  free dot version = true -> Semver.valid version = false.
Proof.
  intros H. unfold Semver.valid.
  destruct (Nat.leb (String.length version) Semver.MAX_LENGTH); [|reflexivity].
  cbn [andb]. cbv zeta.
  set (s := match trim version with
            | String "v" r => r
            | _ => trim version
            end).
  assert (Hs : free dot s = true).
  { pose proof (free_trim dot version H) as Ht. subst s.
    destruct (trim version) as [|a r]; [exact Ht|].
    pose proof (free_tail _ _ _ Ht) as Hr.
    destruct a as [[] [] [] [] [] [] [] []]; assumption. }
  pose proof (free_cut_fst dot "+" s Hs) as Hfront.
  destruct (Semver.cut "+" s) as [front build]. cbn [fst] in Hfront.
  pose proof (free_cut_fst dot "-" front Hfront) as Hmain.
  destruct (Semver.cut "-" front) as [main prerelease]. cbn [fst] in Hmain.
  unfold Semver.main_version. rewrite (split_free _ _ Hmain). reflexivity.
Qed.

Lemma uint_free_dot (d : Decimal.uint) :
  free dot (NilEmpty.string_of_uint d) = true.
Proof. induction d; simpl; auto. Qed.

(** The decimal digits of an integer hold no dot. *)
Lemma string_of_Z_free_dot (z : Z) : free dot (JS.string_of_Z z) = true.
Proof.
  assert (H : forall d, free dot (NilZero.string_of_uint d) = true).
  { intros d. unfold NilZero.string_of_uint.
    destruct d; try reflexivity; apply uint_free_dot. }
  unfold JS.string_of_Z, NilZero.string_of_int.
  destruct (Z.to_int z) as [d|d]; [apply H|].
  specialize (H d). unfold free in *. simpl. exact H.
Qed.

End VersionFacts.

(** X6.  A [metadata.version] that is a number or a boolean is never
    accepted, whatever the rest of the manifest: its text has no dot, so
    it is either missing ([0], [false]) or no semantic version. *)
Theorem scalar_version_rejected (frontmatter : JS.value) (skillFile : string) :
  (exists z, version_field frontmatter = JS.VNum z)
  \/ (exists b, version_field frontmatter = JS.VBool b) ->
  rejects (validateFrontmatter frontmatter skillFile).
Proof.
  intros Hv.
  assert (Hfree : Str.free Str.dot (text (version_field frontmatter)) = true).
  { destruct Hv as [[z ->] | [[] ->]]; try reflexivity.
    unfold text. destruct (JS.truthy (JS.VNum z)); [|reflexivity].
    apply VersionFacts.string_of_Z_free_dot. }
  rewrite validateFrontmatter_cases. unfold first_violation_by, rejects.
  repeat match goal with
         | |- context [if ?c then Some _ else _] => destruct c; [eexists; reflexivity|]
         end.
  cbv zeta.
  rewrite VersionFacts.valid_needs_dots
    by (apply VersionFacts.free_trim; exact Hfree).
  eexists; reflexivity.
Qed.

Lemma scalar_version_rejected_witness :
  rejects (validateFrontmatter
             (manifest (JS.VStr "demo") (JS.VStr "A demo skill") (JS.VNum 2))
             "SKILL.md").
Proof.
  apply scalar_version_rejected. left. exists 2%Z. reflexivity.
Defined.

(** ** Changing a tree at one path *)

Module TreeFacts.
Import Fs FsFacts.

Lemma lookup_entry_del_other (k k' : string) (es : list (string * node)) :
  k <> k' -> lookup k (entry_del k' es) = lookup k es.
Proof.
  intros Hne. induction es as [|[k0 x] r IH]; [reflexivity|]. simpl.
  destruct (String.eqb_spec k' k0) as [->|Hne'].
  - rewrite lookup_cons. destruct (String.eqb_spec k k0); [congruence | exact IH].
  - rewrite !lookup_cons, IH. reflexivity.
Qed.

Lemma entry_set_fresh (k : string) (n : node) (es : list (string * node)) :
  lookup k es = None -> entry_set k n es = (es ++ [(k, n)])%list.
Proof.
  induction es as [|[k0 x] r IH]; [reflexivity|].
  rewrite lookup_cons. simpl. destruct (String.eqb k k0); [discriminate|].
  intros H. rewrite (IH H). reflexivity.
Qed.

Lemma is_prefix_cons (a b : string) (p q : list string) :
  is_prefix (a :: p) (b :: q) = String.eqb a b && is_prefix p q.
Proof. reflexivity. Qed.

Lemma apart_cons (a b : string) (p q : list string) :
  apart (a :: p) (b :: q) -> a <> b \/ (a = b /\ apart p q).
Proof.
  unfold apart. rewrite !is_prefix_cons. intros [H1 H2].
  destruct (String.eqb_spec a b) as [->|Hne]; [right | left; exact Hne].
  rewrite String.eqb_refl in H2. simpl in *. auto.
Qed.

Lemma apart_nil_l (q : list string) : ~ apart [] q.
Proof. intros [H _]. discriminate. Qed.

Lemma apart_nil_r (p : list string) : ~ apart p [].
Proof. intros [_ H]. discriminate. Qed.

(** [rm -rf] at one path changes nothing at a path apart from it. *)
Lemma find_remove_apart (T S : list string) (t : node) :
  apart S T -> find S (remove T t) = find S t.
Proof.
  revert S t. induction T as [|k T IH]; intros S t Ha.
  - destruct (apart_nil_r _ Ha).
  - destruct S as [|j S]; [destruct (apart_nil_l _ Ha)|].
    destruct t as [d|es]; [reflexivity|].
    apply apart_cons in Ha.
    destruct T as [|k' T'].
    + destruct Ha as [Hne | [_ Ha]]; [|destruct (apart_nil_r _ Ha)].
      simpl. rewrite lookup_entry_del_other by assumption. reflexivity.
    + change (remove (k :: k' :: T') (Dir es))
        with (match lookup k es with
              | Some c => Dir (entry_set k (remove (k' :: T') c) es)
              | None => Dir es
              end).
      destruct (lookup k es) as [c|] eqn:Hl; [|reflexivity].
      cbn [find]. destruct Ha as [Hne | [-> Ha]].
      * rewrite lookup_entry_set_other by assumption. reflexivity.
      * rewrite lookup_entry_set_same, Hl. apply IH. exact Ha.
Qed.

(** [mkdir -p] at one path changes nothing at a path apart from it. *)
Lemma find_mkdirp_apart (T S : list string) (t t' : node) :
  mkdirp T t = Some t' -> apart S T -> find S t' = find S t.
Proof.
  revert S t t'. induction T as [|k T IH]; intros S t t' Hm Ha.
  - destruct (apart_nil_r _ Ha).
  - destruct S as [|j S]; [destruct (apart_nil_l _ Ha)|].
    destruct t as [d|es]; [discriminate|]. cbn [mkdirp] in Hm.
    destruct (mkdirp T match lookup k es with
                       | Some c => c
                       | None => Dir []
                       end) as [c'|] eqn:Hc; [|discriminate].
    injection Hm as <-. cbn [find].
    apply apart_cons in Ha. destruct Ha as [Hne | [-> Ha]].
    + rewrite lookup_entry_set_other by assumption. reflexivity.
    + rewrite lookup_entry_set_same.
      rewrite (IH S _ _ Hc Ha).
      destruct (lookup k es); [reflexivity|].
      destruct S as [|j' S']; [destruct (apart_nil_l _ Ha) | reflexivity].
Qed.

(** Writing at one path changes nothing at a path apart from it. *)
Lemma find_write_apart (T S : list string) (new t t' : node) :
  write T new t = Some t' -> apart S T -> find S t' = find S t.
Proof.
  revert S t t'. induction T as [|k T IH]; intros S t t' Hw Ha.
  - destruct (apart_nil_r _ Ha).
  - destruct S as [|j S]; [destruct (apart_nil_l _ Ha)|].
    destruct t as [d|es]; [discriminate|].
    apply apart_cons in Ha.
    destruct T as [|k' T'].
    + simpl in Hw. injection Hw as <-. cbn [find].
      destruct Ha as [Hne | [_ Ha]]; [|destruct (apart_nil_r _ Ha)].
      rewrite lookup_entry_set_other by assumption. reflexivity.
    + rewrite write_below in Hw.
      destruct (lookup k es) as [c|] eqn:Hl; [|discriminate].
      destruct (write (k' :: T') new c) as [c'|] eqn:Hc; [|discriminate].
      injection Hw as <-. cbn [find].
      destruct Ha as [Hne | [-> Ha]].
      * rewrite lookup_entry_set_other by assumption. reflexivity.
      * rewrite lookup_entry_set_same, Hl. exact (IH S _ _ Hc Ha).
Qed.

(** [mkdir -p] where nothing is makes an empty directory. *)
Lemma mkdirp_makes (T : list string) (t t' : node) :
  mkdirp T t = Some t' -> find T t = None -> find T t' = Some (Dir []).
Proof.
  revert t t'. induction T as [|k T IH]; intros t t' Hm Hn; [discriminate|].
  destruct t as [d|es]; [discriminate|]. cbn [mkdirp] in Hm. cbn [find] in Hn.
  destruct (lookup k es) as [c|] eqn:Hl.
  - destruct (mkdirp T c) as [c'|] eqn:Hc; [|discriminate].
    injection Hm as <-. cbn [find]. rewrite lookup_entry_set_same.
    exact (IH _ _ Hc Hn).
  - destruct (mkdirp T (Dir [])) as [c'|] eqn:Hc; [|discriminate].
    injection Hm as <-. cbn [find]. rewrite lookup_entry_set_same.
    destruct T as [|k' T'].
    + simpl in Hc. injection Hc as <-. reflexivity.
    + apply (IH _ _ Hc). reflexivity.
Qed.

Lemma mkdirp_cons (k : string) (T : list string) (es : list (string * node)) :
  mkdirp (k :: T) (Dir es) =
  match mkdirp T (match lookup k es with
                  | Some c => c
                  | None => Dir []
                  end) with
  | Some c' => Some (Dir (entry_set k c' es))
  | None => None
  end.
Proof. reflexivity. Qed.

(** [mkdir -p] succeeds below an existing directory where nothing is. *)
Lemma mkdirp_below (T : list string) (t : node) (ps : list (string * node)) :
  T <> [] -> find (removelast T) t = Some (Dir ps) -> find T t = None ->
  exists t', mkdirp T t = Some t'.
Proof.
  revert t. induction T as [|k T IH]; intros t Hne Hp Hn; [congruence|].
  destruct T as [|k' T'].
  - simpl in Hp. injection Hp as ->. simpl in *.
    destruct (lookup k ps); [destruct n; discriminate|]. eexists; reflexivity.
  - change (removelast (k :: k' :: T')) with (k :: removelast (k' :: T')) in Hp.
    destruct t as [d|es]; [discriminate|]. cbn [find] in Hp, Hn.
    rewrite mkdirp_cons. destruct (lookup k es) as [c|]; [|discriminate].
    destruct (IH c ltac:(discriminate) Hp Hn) as [c' Hc].
    rewrite Hc. eexists; reflexivity.
Qed.

(** After [rm -rf] the directory above is still a directory. *)
Lemma remove_keeps_parent (T : list string) (t : node) (ps : list (string * node)) :
  T <> [] -> find (removelast T) t = Some (Dir ps) ->
  exists ps', find (removelast T) (remove T t) = Some (Dir ps').
Proof.
  revert t. induction T as [|k T IH]; intros t Hne Hp; [congruence|].
  destruct T as [|k' T'].
  - simpl in Hp. injection Hp as ->. simpl. eexists; reflexivity.
  - change (removelast (k :: k' :: T')) with (k :: removelast (k' :: T')) in *.
    destruct t as [d|es]; [discriminate|]. cbn [find] in Hp.
    change (remove (k :: k' :: T') (Dir es))
      with (match lookup k es with
            | Some c => Dir (entry_set k (remove (k' :: T') c) es)
            | None => Dir es
            end).
    destruct (lookup k es) as [c|] eqn:Hl; [|discriminate].
    cbn [find]. rewrite lookup_entry_set_same.
    apply (IH c); [discriminate | exact Hp].
Qed.

Lemma distinct_app_notin (l r : list string) (k : string) :
  distinct (l ++ k :: r) = true -> existsb (String.eqb k) l = false.
Proof.
  induction l as [|a l IH]; [reflexivity|]. simpl.
  intros H. apply andb_true_iff in H as [Ha Hl].
  apply negb_true_iff in Ha. rewrite existsb_app in Ha.
  apply orb_false_iff in Ha as [_ Ha]. simpl in Ha.
  apply orb_false_iff in Ha as [Hak _].
  rewrite String.eqb_sym, Hak. exact (IH Hl).
Qed.

(** Copying well-formed entries into a directory that has none of their
    names appends them, in order. *)
Lemma cp_entries_fresh (es : list (string * node)) :
  Forall (fun e => cp_node (snd e) None = (snd e, true)) es ->
  forall acc, distinct (map fst (acc ++ es)) = true ->
  cp_entries es acc = ((acc ++ es)%list, true).
Proof.
  induction es as [|[k s] rest IH]; intros Hall acc Hd.
  - rewrite app_nil_r. reflexivity.
  - inversion Hall as [|? ? Hs Hrest]; subst. cbn [snd] in Hs.
    assert (Hnone : lookup k acc = None).
    { apply lookup_none_notin. rewrite map_app in Hd.
      exact (distinct_app_notin _ _ _ Hd). }
    rewrite cp_entries_cons, Hnone, Hs. cbv zeta. cbn [fst snd].
    rewrite entry_set_fresh by exact Hnone.
    rewrite (IH Hrest); rewrite <- app_assoc; [reflexivity | exact Hd].
Qed.

(** Copying a well-formed tree to where nothing is, or into an empty
    directory, yields the tree itself. *)
Lemma cp_node_fresh (s : node) :
  names_distinct s = true ->
  cp_node s None = (s, true)
  /\ (forall es, s = Dir es -> cp_node s (Some (Dir [])) = (s, true)).
Proof.
  induction s as [data|es IH] using node_induction; intros Hwf.
  - split; [reflexivity | discriminate].
  - apply names_distinct_dir in Hwf as [Hd Hall].
    assert (H : cp_entries es [] = (es, true)).
    { apply (cp_entries_fresh es); [|exact Hd].
      rewrite Forall_forall in IH, Hall |- *.
      intros e Hin. apply (IH e Hin). apply (Hall e Hin). }
    split; [|intros es' _]; rewrite cp_node_dir; cbv zeta; rewrite H; reflexivity.
Qed.

End TreeFacts.

(** ** Merging into a destination *)

Module MergeFacts.
Import Fs FsFacts.





End MergeFacts.





(** ** Overwriting a destination *)

(** X7.  The overwrite action ([fs.rm] of the destination, then
    [copyDir]) leaves at the destination exactly the source directory:
    what was there before is gone, nothing of the source is missing or
    changed, and the source itself is untouched.  This holds on a
    well-formed file system when the directory above the destination
    exists and source and destination lie apart. *)
Theorem overwrite_installs_exact_copy (P : Platform) (sourceDir targetDir : string)
  (w : World) (es ps : list (string * Fs.node)) :
  names_distinct (fs w) = true ->
  Fs.find (seg P sourceDir) (fs w) = Some (Fs.Dir es) ->
  Fs.find (removelast (seg P targetDir)) (fs w) = Some (Fs.Dir ps) ->
  apart (seg P sourceDir) (seg P targetDir) ->
  let run := (fs_rm P targetDir ;;; copyDir P sourceDir targetDir) w in
  fst run = Returned tt
  /\ Fs.find (seg P targetDir) (fs (snd run)) = Some (Fs.Dir es)
  /\ Fs.find (seg P sourceDir) (fs (snd run)) = Some (Fs.Dir es).
Proof.
  intros Hwf Hs Hp Ha.
  set (S := seg P sourceDir) in *. set (T := seg P targetDir) in *.
  assert (HT : T <> []).
  { intros E. rewrite E in Ha. exact (TreeFacts.apart_nil_r _ Ha). }
  set (t1 := Fs.remove T (fs w)).
  assert (Hn1 : Fs.find T t1 = None) by (apply find_remove; exact HT).
  destruct (TreeFacts.remove_keeps_parent T (fs w) ps HT Hp) as [ps' Hp1].
  fold t1 in Hp1.
  destruct (TreeFacts.mkdirp_below T t1 ps' HT Hp1 Hn1) as [t2 Hm].
  pose proof (TreeFacts.mkdirp_makes T t1 t2 Hm Hn1) as Hd2.
  assert (Hs2 : Fs.find S t2 = Some (Fs.Dir es)).
  { rewrite (TreeFacts.find_mkdirp_apart T S t1 t2 Hm Ha).
    unfold t1. rewrite (TreeFacts.find_remove_apart T S (fs w) Ha). exact Hs. }
  assert (Hparent : Fs.mkdirp (removelast T) t2 = Some t2).
  { destruct (FsFacts.find_removelast T t2 _ HT Hd2) as [qs Hqs].
    eapply FsFacts.mkdirp_existing. exact Hqs. }
  assert (Hcp : Fs.cp_node (Fs.Dir es) (Some (Fs.Dir [])) = (Fs.Dir es, true)).
  { assert (Hes : names_distinct (Fs.Dir es) = true)
      by (eapply FsFacts.find_names_distinct; eassumption).
    destruct (TreeFacts.cp_node_fresh (Fs.Dir es) Hes) as [_ H].
    exact (H es eq_refl). }
  destruct (FsFacts.write_existing T (Fs.Dir es) t2 _ Hd2) as (t3 & Hw & Hfind).
  assert (Hrun : (fs_rm P targetDir ;;; copyDir P sourceDir targetDir) w
                 = (Returned tt,
                    mkWorld t3 (((trace w ++ [EvRm targetDir])
                                 ++ [EvMkdir targetDir])
                                ++ [EvCp sourceDir targetDir]))).
  { unfold copyDir, fs_rm, fs_mkdir, fs_cp, bind, emit, get_fs, set_fs, ret, throw.
    cbn [fs trace]. fold S T t1. rewrite Hm. cbn [fs trace].
    rewrite Hs2. destruct Ha as [Ha1 _]. rewrite Ha1, Hparent, Hd2, Hcp, Hw.
    reflexivity. }
  cbv zeta. rewrite Hrun. cbn [fst snd fs].
  split; [reflexivity|]. split.
  - rewrite <- (app_nil_r T), Hfind. reflexivity.
  - rewrite (TreeFacts.find_write_apart T S _ t2 t3 Hw Ha). exact Hs2.
Qed.

Lemma overwrite_installs_exact_copy_witness :
  let run := (fs_rm (sample_platform SpawnENOENT) "/home/u/.claude/skills/demo" ;;;
              copyDir (sample_platform SpawnENOENT) "/work/skill"
                "/home/u/.claude/skills/demo") sample_world in
  fst run = Returned tt
  /\ Fs.find ["home"; "u"; ".claude"; "skills"; "demo"] (fs (snd run))
     = Some (Fs.Dir [("SKILL.md", Fs.File "manifest");
                     ("guide.md", Fs.File "guide")])
  /\ Fs.find ["work"; "skill"] (fs (snd run))
     = Some (Fs.Dir [("SKILL.md", Fs.File "manifest");
                     ("guide.md", Fs.File "guide")]).
Proof.
  apply (overwrite_installs_exact_copy (sample_platform SpawnENOENT)
           "/work/skill" "/home/u/.claude/skills/demo" sample_world
           [("SKILL.md", Fs.File "manifest"); ("guide.md", Fs.File "guide")]
           [("demo", Fs.Dir [("notes.txt", Fs.File "mine");
                             ("SKILL.md", Fs.File "old manifest")])]);
    try reflexivity.
  split; reflexivity.
Defined.

(** ** What source resolution guarantees *)

Lemma abs_path_isAbsolute (N : list string) : Path.isAbsolute (abs_path N) = true.
Proof. reflexivity. Qed.

Lemma abs_path_snoc (N : list string) (z : string) :
  abs_path (N ++ [z])
  = (match N with [] => "" | _ => abs_path N end) ++ "/" ++ z.
Proof.
  unfold abs_path. destruct N as [|a N']; [reflexivity|].
  rewrite StrFacts.join_app by discriminate.
  rewrite !StrFacts.append_assoc. reflexivity.
Qed.

Lemma abs_path_not_root (N : list string) :
  N <> [] -> Forall (fun x => clean x = true) N -> abs_path N <> "/".
Proof.
  intros Hne Hc E. apply (PathFacts.join_clean_nonempty N Hne Hc).
  unfold abs_path in E.
  change (String "/" (Str.join "/" N) = String "/" "") in E.
  injection E as E. exact E.
Qed.

(** On a normalised absolute path, [dirname] and [basename] split off
    the last segment and [path.join] puts it back. *)
Lemma join_dirname_basename (N : list string) :
  N <> [] -> Forall (fun x => clean x = true) N ->
  Path.join [Path.dirname (abs_path N); Path.basename (abs_path N)] = abs_path N.
Proof.
  intros Hne Hc. destruct (exists_last Hne) as (N' & z & ->).
  apply Forall_app in Hc as [HN' Hz]. inversion Hz as [|? ? Hzc _]; subst.
  destruct (PathFacts.clean_inv z Hzc) as (Hz0 & _ & _ & _ & Hzf).
  rewrite abs_path_snoc.
  assert (Hdir : Path.dirname ((match N' with [] => "" | _ => abs_path N' end)
                               ++ "/" ++ z) = abs_path N').
  { destruct N' as [|a N'']; [apply DirFacts.dirname_root_child; assumption|].
    apply DirFacts.dirname_child; try assumption.
    - discriminate.
    - apply abs_path_not_root; [discriminate | assumption]. }
  rewrite Hdir, DirFacts.basename_child by assumption.
  rewrite PathFacts.join_absolute;
    [| apply abs_path_isAbsolute | discriminate | repeat constructor; assumption].
  rewrite PathFacts.split_abs_path by assumption.
  rewrite abs_path_snoc. reflexivity.
Qed.

Section Resolution.
Variable P : Platform.

(** [resolveSkillDirFromBase] only looks, and returns only a directory
    in which [SKILL.md] is a regular file. *)
Lemma resolveSkillDirFromBase_returned (baseDir : string) (subdir : option string)
  (w w1 : World) (dir : string) :
  resolveSkillDirFromBase P baseDir subdir w = (Returned dir, w1) ->
  fs w1 = fs w
  /\ exists data,
       Fs.find (seg P (Path.join [dir; "SKILL.md"])) (fs w) = Some (Fs.File data).
Proof.
  unfold resolveSkillDirFromBase, bind, catch_null, fs_stat, bind, emit, get_fs,
    ret, throw. cbn [fs trace].
  set (d := if Str.truthy_opt subdir then Path.join [baseDir; text_of subdir]
            else baseDir).
  destruct (Fs.find (seg P (Path.join [d; "SKILL.md"])) (fs w)) as [[data|es]|] eqn:E;
    cbn; try discriminate.
  intros [= <- <-]. split; [reflexivity|]. exists data. exact E.
Qed.

Lemma resolveSkillDirFromBase_fs (baseDir : string) (subdir : option string)
  (w : World) :
  fs (snd (resolveSkillDirFromBase P baseDir subdir w)) = fs w.
Proof.
  unfold resolveSkillDirFromBase, bind, catch_null, fs_stat, bind, emit, get_fs,
    ret, throw. cbn [fs trace].
  destruct (Fs.find _ (fs w)) as [[data|es]|]; reflexivity.
Qed.

(** X8.  Resolving a source that has no repo spec (a local path) only
    looks at the file system: the files are the same afterwards, and a
    result carries no cleanup. *)
Theorem local_resolution_reads_only (input : string) (subdir ref : option string)
  (w : World) :
  parseRepoSpec input = None ->
  fs (snd (resolveSkillSource P input subdir ref w)) = fs w
  /\ forall r w1,
       resolveSkillSource P input subdir ref w = (Returned r, w1) ->
       cleanup r = None.
Proof.
  intros Hp. unfold resolveSkillSource. rewrite Hp.
  unfold bind at 1. unfold catch_null, fs_stat, bind, emit, get_fs, ret, throw.
  cbn [fs trace].
  destruct (Fs.find (seg P input) (fs w)) as [[data|es]|]; cbn [Fs.stats_of].
  - destruct (negb (String.eqb (Path.basename input) "SKILL.md")); cbn.
    + split; [reflexivity | discriminate].
    + split; [reflexivity|]. intros r w1 [= <- _]. reflexivity.
  - set (w' := mkWorld (fs w) (trace w ++ [EvStat input])).
    pose proof (resolveSkillDirFromBase_fs input
                  (if Str.truthy_opt subdir then subdir else None) w') as Hfs.
    destruct (resolveSkillDirFromBase P input _ w') as [[dir|e|c] w2];
      cbn [fst snd] in *.
    + split; [exact Hfs|]. intros r w1 [= <- _]. reflexivity.
    + split; [exact Hfs | discriminate].
    + split; [exact Hfs | discriminate].
  - cbn. split; [reflexivity | discriminate].
Qed.

(** X9.  A source that resolves is a directory that holds the manifest:
    [SKILL.md] is a regular file directly inside the returned skill
    directory, in the file system as resolution leaves it.  (A local
    input is the absolute path [runInstall] resolved it to.) *)
Theorem resolved_source_holds_manifest (input : string) (subdir ref : option string)
  (w w1 : World) (r : ResolveResult) :
  (parseRepoSpec input = None ->
   exists q, input = Path.resolve (cwd (env P)) q) ->
  resolveSkillSource P input subdir ref w = (Returned r, w1) ->
  exists data,
    Fs.find (seg P (Path.join [skillDir r; "SKILL.md"])) (fs w1)
    = Some (Fs.File data).
Proof.
  intros Hlocal. unfold resolveSkillSource.
  destruct (parseRepoSpec input) as [[url rref rsub]|].
  - destruct (Str.truthy_opt subdir && Str.truthy_opt rsub); [discriminate|].
    intros H.
    apply bind_returned in H as (dir & w2 & _ & H).
    apply bind_returned in H as (_ & w3 & _ & H).
    apply bind_returned in H as (sd & w4 & Hsd & H).
    injection H as <- <-.
    apply resolveSkillDirFromBase_returned in Hsd as [-> Hfile]. exact Hfile.
  - destruct (Hlocal eq_refl) as [q ->]. clear Hlocal.
    destruct (PathFacts.resolve_abs_path (cwd (env P)) q) as (N & HN & ->).
    intros H. apply bind_returned in H as (st & w2 & Hst & H).
    assert (Hw2 : fs w2 = fs w
                  /\ (st = Some Fs.IsFile ->
                      exists data,
                        Fs.find (seg P (abs_path N)) (fs w) = Some (Fs.File data))).
    { revert Hst. unfold catch_null, fs_stat, bind, emit, get_fs, ret, throw.
      cbn [fs trace].
      destruct (Fs.find (seg P (abs_path N)) (fs w)) as [[data|es]|];
        intros [= <- <-]; (split; [reflexivity|]); try discriminate.
      intros _. exists data. reflexivity. }
    destruct Hw2 as [Hfs Hfile].
    destruct st as [[| |]|]; try discriminate.
    + destruct (String.eqb_spec (Path.basename (abs_path N)) "SKILL.md")
        as [Hb|]; [|discriminate].
      cbn [negb] in H.
      remember (Path.dirname (abs_path N)) as dn eqn:Edn.
      injection H as <- <-. cbn [skillDir].
      destruct (Hfile eq_refl) as [data Hdata]. exists data.
      assert (HNne : N <> []) by (intros ->; discriminate).
      rewrite Edn, <- Hb, join_dirname_basename, Hfs by assumption. exact Hdata.
    + apply bind_returned in H as (sd & w3 & Hsd & H).
      injection H as <- <-. cbn [skillDir].
      apply resolveSkillDirFromBase_returned in Hsd as [-> (data & Hdata)].
      exists data. exact Hdata.
Qed.

End Resolution.

Lemma resolved_source_holds_manifest_witness :
  exists data,
    Fs.find (seg (sample_platform SpawnENOENT) (Path.join ["/work/skill"; "SKILL.md"]))
            sample_fs
    = Some (Fs.File data).
Proof.
  apply (resolved_source_holds_manifest (sample_platform SpawnENOENT)
           "/work/skill" None None sample_world
           (mkWorld sample_fs [EvStat "/work/skill"; EvStat "/work/skill/SKILL.md"])
           (mkResolveResult "/work/skill" None)).
  - intros _. exists "skill". reflexivity.
  - reflexivity.
Defined.

(** ** A clone that fails *)

Lemma write_fresh (p : list string) (new t : Fs.node) (ps : list (string * Fs.node)) :
  Fs.find p t = None -> Fs.find (removelast p) t = Some (Fs.Dir ps) ->
  exists t', Fs.write p new t = Some t' /\ Fs.find p t' = Some new.
Proof.
  revert t. induction p as [|k p IH]; intros t Hn Hp; [discriminate|].
  destruct p as [|k' p'].
  - simpl in Hp. injection Hp as ->.
    exists (Fs.Dir (Fs.entry_set k new ps)). split; [reflexivity|].
    simpl. rewrite FsFacts.lookup_entry_set_same. reflexivity.
  - change (removelast (k :: k' :: p')) with (k :: removelast (k' :: p')) in Hp.
    destruct t as [d|es]; [discriminate|]. cbn [Fs.find] in Hp, Hn.
    destruct (Fs.lookup k es) as [c|] eqn:Hl; [|discriminate].
    destruct (IH c Hn Hp) as (c' & Hw & Hf).
    exists (Fs.Dir (Fs.entry_set k c' es)). split.
    + rewrite FsFacts.write_below, Hl, Hw. reflexivity.
    + cbn [Fs.find]. rewrite FsFacts.lookup_entry_set_same. exact Hf.
Qed.

Lemma bind_returned_eq {A B} (m : M A) (k : A -> M B) (w w1 : World) (a : A) :
  m w = (Returned a, w1) -> bind m k w = k a w1.
Proof. intros H. unfold bind. rewrite H. reflexivity. Qed.

Lemma bind_thrown_eq {A B} (m : M A) (k : A -> M B) (w w1 : World) (e : exn) :
  m w = (Thrown e, w1) -> bind m k w = (Thrown e, w1).
Proof. intros H. unfold bind. rewrite H. reflexivity. Qed.

Lemma cloneRepo_args (P : Platform) (repoUrl targetDir : string)
  (ref : option string) :
  cloneRepo P repoUrl targetDir ref = runGit P (clone_args repoUrl targetDir ref).
Proof.
  unfold cloneRepo, clone_args.
  destruct ref as [r|]; cbn [Str.truthy_opt text_of];
    [destruct (Str.truthy r)|]; reflexivity.
Qed.

(** X10.  When the git client fails (it cannot be started, or it exits
    with a code other than 0), a run on a repository source throws the
    error that names the failure, after exactly two platform calls: the
    making of the clone directory and the spawn of
    [git clone --depth 1 [--branch <ref> --single-branch] <url> <dir>],
    where the ref is the [--ref] option when given and else the ref of
    the URL.  No [rm] follows: the empty clone directory stays on
    disk. *)
Theorem failed_clone_leaves_directory (P : Platform) (o : InstallOptions)
  (w : World) (input : string) (spec : RepoSpec) (ps : list (string * Fs.node)) :
  skillPath o = Some input ->
  force o && merge o = false ->
  parseRepoSpec input = Some spec ->
  Str.truthy_opt (opt_subdir o) && Str.truthy_opt (subdir spec) = false ->
  Fs.find (seg P (cloneDir_of P)) (fs w) = None ->
  Fs.find (removelast (seg P (cloneDir_of P))) (fs w) = Some (Fs.Dir ps) ->
  let args := clone_args (repoUrl spec) (cloneDir_of P)
                (Str.or_else (opt_ref o) (ref spec)) in
  git_fails (git P args) = true ->
  exists t',
    runInstall P o w
    = (Thrown (Error (git_failure_message (git P args))),
       mkWorld t' (trace w ++ [EvMkdtemp (Path.join [tmpdir (env P); "agent-skill-"]);
                               EvSpawn "git" args]))
    /\ Fs.find (seg P (cloneDir_of P)) t' = Some (Fs.Dir []).
Proof.
  intros Hs Hfm Hp Hconf Hnone Hparent args Hfail.
  pose proof (parseRepoSpec_isRepoLike _ _ Hp) as Hlike.
  assert (Ht : Str.truthy input = true).
  { unfold isRepoLike in Hlike. destruct (Str.truthy input); [reflexivity|].
    discriminate. }
  destruct (write_fresh _ (Fs.Dir []) _ _ Hnone Hparent) as (t' & Hw & Hfind).
  exists t'. split; [|exact Hfind].
  set (prefix := Path.join [tmpdir (env P); "agent-skill-"]).
  set (w1 := mkWorld t' (trace w ++ [EvMkdtemp prefix])).
  assert (Hmk : fs_mkdtemp P prefix w = (Returned (cloneDir_of P), w1)).
  { unfold fs_mkdtemp, bind, emit, get_fs, set_fs, ret, throw. cbn [fs trace].
    change (prefix ++ mkdtemp_suffix P) with (cloneDir_of P).
    rewrite Hnone, Hparent, Hw. reflexivity. }
  assert (Hgit : runGit P args w1
                 = (Thrown (Error (git_failure_message (git P args))),
                    mkWorld t' (trace w ++ [EvMkdtemp prefix; EvSpawn "git" args]))).
  { unfold runGit, bind, emit, throw, w1. cbn [fs trace].
    rewrite <- app_assoc. cbn [app].
    destruct (git P args) as [| message | code checkout]; try reflexivity.
    cbn [git_fails] in Hfail. apply negb_true_iff in Hfail. rewrite Hfail.
    reflexivity. }
  destruct spec as [url rref rsub]. cbn [subdir repoUrl ref] in *.
  assert (Hres : resolveSkillSource P input (opt_subdir o) (opt_ref o) w
                 = (Thrown (Error (git_failure_message (git P args))),
                    mkWorld t' (trace w ++ [EvMkdtemp prefix; EvSpawn "git" args]))).
  { unfold resolveSkillSource. rewrite Hp, Hconf. fold prefix.
    rewrite (bind_returned_eq _ _ _ _ _ Hmk).
    rewrite cloneRepo_args. fold args.
    rewrite (bind_thrown_eq _ _ _ _ _ Hgit). reflexivity. }
  unfold runInstall. rewrite Hs, Hfm. cbn [Str.truthy_opt text_of].
  rewrite Ht, Hlike. cbn [negb].
  rewrite (bind_thrown_eq _ _ _ _ _ Hres). reflexivity.
Qed.

Lemma failed_clone_leaves_directory_witness :
  exists t',
    runInstall (sample_platform (Closed 128 []))
      (mkOptions (Some "https://github.com/o/r/tree/main/skills/x") None
                 (Some "v2") None false false) sample_world
    = (Thrown (Error "git exited with code 128"),
       mkWorld t' [EvMkdtemp "/tmp/agent-skill-";
                   EvSpawn "git" ["clone"; "--depth"; "1"; "--branch"; "v2";
                                  "--single-branch";
                                  "https://github.com/o/r.git";
                                  "/tmp/agent-skill-AbC123"]])
    /\ Fs.find ["tmp"; "agent-skill-AbC123"] t' = Some (Fs.Dir []).
Proof.
  apply (failed_clone_leaves_directory (sample_platform (Closed 128 []))
           (mkOptions (Some "https://github.com/o/r/tree/main/skills/x") None
                      (Some "v2") None false false)
           sample_world "https://github.com/o/r/tree/main/skills/x"
           (mkRepoSpec "https://github.com/o/r.git" (Some "main") (Some "skills/x"))
           []);
    reflexivity.
Defined.

(** ** Calls a run does not make *)

Section AddsNo.
Variable kind : event -> bool.

Lemma adds_no_ret {A} (a : A) : adds_no kind (ret a).
Proof. intros w. reflexivity. Qed.

Lemma adds_no_throw {A} (e : exn) : adds_no kind (@throw A e).
Proof. intros w. reflexivity. Qed.

Lemma adds_no_exit {A} (c : Z) : adds_no kind (@exit A c).
Proof. intros w. reflexivity. Qed.

Lemma adds_no_get_fs : adds_no kind get_fs.
Proof. intros w. reflexivity. Qed.

Lemma adds_no_set_fs (n : Fs.node) : adds_no kind (set_fs n).
Proof. intros w. reflexivity. Qed.

Lemma adds_no_lift {A} (r : result A) : adds_no kind (lift r).
Proof. destruct r; intros w; reflexivity. Qed.

Lemma adds_no_emit (e : event) : kind e = false -> adds_no kind (emit e).
Proof.
  intros H w. unfold emit. cbn [snd trace].
  rewrite existsb_app. simpl. rewrite H. rewrite !orb_false_r. reflexivity.
Qed.

(** Sequencing, with what is known of the first result. *)
Lemma adds_no_bind_post {A B} (Q : A -> Prop) (m : M A) (k : A -> M B) :
  (forall w a w1, m w = (Returned a, w1) -> Q a) ->
  adds_no kind m -> (forall a, Q a -> adds_no kind (k a)) ->
  adds_no kind (bind m k).
Proof.
  intros HQ Hm Hk w. unfold bind. specialize (Hm w).
  destruct (m w) as [[a|e|c] w1] eqn:E; cbn [snd] in *; try exact Hm.
  rewrite (Hk a (HQ _ _ _ E) w1). exact Hm.
Qed.

Lemma adds_no_bind {A B} (m : M A) (k : A -> M B) :
  adds_no kind m -> (forall a, adds_no kind (k a)) -> adds_no kind (bind m k).
Proof.
  intros Hm Hk. apply (adds_no_bind_post (fun _ => True)); auto.
Qed.

Lemma adds_no_catch_null {A} (m : M A) :
  adds_no kind m -> adds_no kind (catch_null m).
Proof.
  intros Hm w. unfold catch_null. specialize (Hm w).
  destruct (m w) as [[a|e|c] w1]; exact Hm.
Qed.

Lemma adds_no_try_finally {A} (body : M A) (final : M unit) :
  adds_no kind body -> adds_no kind final ->
  adds_no kind (try_finally body final).
Proof.
  intros Hb Hf w. unfold try_finally. specialize (Hb w).
  destruct (body w) as [[a|e|c] w1]; cbn [snd] in *; try exact Hb;
    specialize (Hf w1); destruct (final w1) as [[u|e'|c'] w2];
    cbn [snd] in *; congruence.
Qed.

Lemma adds_no_for_of {A} (l : list A) (body : A -> M unit) :
  (forall a, adds_no kind (body a)) -> adds_no kind (for_of l body).
Proof.
  intros H. induction l as [|x r IH]; simpl.
  - apply adds_no_ret.
  - apply adds_no_bind; [apply H | intros _; exact IH].
Qed.

End AddsNo.

(** Splits a computation along its binds and case distinctions; the
    events it meets must compute to calls of another kind. *)
Ltac adds_no_steps :=
  repeat first
    [ apply adds_no_ret | apply adds_no_throw | apply adds_no_exit
    | apply adds_no_get_fs | apply adds_no_set_fs | apply adds_no_lift
    | apply adds_no_emit; reflexivity
    | apply adds_no_catch_null
    | apply adds_no_bind; [|intro]
    | match goal with
      | |- adds_no _ (match ?x with _ => _ end) => destruct x
      end ].

Section RunCalls.
Variable P : Platform.

(** The cleanup of a resolved source: none, or the removal of the clone
    directory. *)
Lemma cleanup_shape (input : string) (subdir ref : option string)
  (w w1 : World) (r : ResolveResult) :
  resolveSkillSource P input subdir ref w = (Returned r, w1) ->
  (parseRepoSpec input = None /\ cleanup r = None)
  \/ (parseRepoSpec input <> None
      /\ cleanup r = Some (fs_rm P (cloneDir_of P))).
Proof.
  intros H. destruct (parseRepoSpec input) as [spec|] eqn:Hp.
  - right. split; [discriminate|].
    exact (proj1 (resolveSkillSource_cleanup P _ _ _ _ _ _ _ Hp H)).
  - left. split; [reflexivity|]. revert H. unfold resolveSkillSource. rewrite Hp.
    intros H. apply bind_returned in H as (st & w2 & _ & H).
    destruct st as [[| |]|]; try discriminate.
    + destruct (negb _); [discriminate|]. injection H as <- _. reflexivity.
    + apply bind_returned in H as (sd & w3 & _ & H).
      injection H as <- _. reflexivity.
Qed.

Lemma no_prompt_resolve (input : string) (subdir ref : option string) :
  adds_no is_prompt (resolveSkillSource P input subdir ref).
Proof.
  unfold resolveSkillSource, fs_mkdtemp, cloneRepo, runGit,
    resolveSkillDirFromBase, fs_stat.
  adds_no_steps.
Qed.

Lemma no_prompt_fs_rm (path : string) : adds_no is_prompt (fs_rm P path).
Proof. unfold fs_rm. adds_no_steps. Qed.

Lemma no_prompt_copyDir (src dest : string) : adds_no is_prompt (copyDir P src dest).
Proof. unfold copyDir, fs_mkdir, fs_cp. adds_no_steps. Qed.

Lemma no_prompt_install_target (skillDir skillName : string) (force merge : bool)
  (target : InstallTarget) :
  force || merge = true ->
  adds_no is_prompt (install_target P skillDir skillName force merge target).
Proof.
  intros Hfm. unfold install_target.
  apply adds_no_bind; [unfold fs_mkdir; adds_no_steps | intros _].
  apply adds_no_bind; [unfold pathExists, fs_access; adds_no_steps | intros ex].
  assert (Hcond : ex && negb force && negb merge = false).
  { destruct ex, force, merge; try reflexivity; discriminate. }
  rewrite Hcond.
  apply adds_no_bind.
  - destruct (ex && merge); [|destruct (ex && force)]; apply adds_no_ret.
  - intros action. pose proof no_prompt_copyDir. pose proof no_prompt_fs_rm.
    destruct action; adds_no_steps; auto.
Qed.

Lemma no_prompt_install_from (skillDir : string) (destination : option string)
  (force merge : bool) :
  force || merge = true ->
  adds_no is_prompt (install_from P skillDir destination force merge).
Proof.
  intros Hfm. unfold install_from.
  apply adds_no_bind; [unfold fs_readFile; adds_no_steps | intros contents].
  apply adds_no_bind; [adds_no_steps | intros fm].
  apply adds_no_bind; [adds_no_steps | intros _].
  apply adds_no_bind; [adds_no_steps | intros _].
  apply adds_no_for_of. intros t. apply no_prompt_install_target. exact Hfm.
Qed.

(** X11.  With [--force] or [--merge] a run is not interactive: it
    never asks the operator, whatever the source, the targets and the
    file system are. *)
Theorem flags_make_run_non_interactive (o : InstallOptions) (w : World) :
  force o || merge o = true ->
  existsb is_prompt (trace (snd (runInstall P o w)))
  = existsb is_prompt (trace w).
Proof.
  intros Hfm. revert w. change (adds_no is_prompt (runInstall P o)).
  unfold runInstall.
  destruct (negb (Str.truthy_opt (skillPath o))); [adds_no_steps|].
  destruct (force o && merge o); [adds_no_steps|].
  eapply adds_no_bind_post.
  - intros w a w1 H. exact (cleanup_shape _ _ _ _ _ _ H).
  - apply no_prompt_resolve.
  - intros r Hr. apply adds_no_try_finally.
    + apply no_prompt_install_from. exact Hfm.
    + destruct Hr as [[_ ->] | [_ ->]]; [apply adds_no_ret | apply no_prompt_fs_rm].
Qed.

Lemma no_clone_install_target (skillDir skillName : string) (force merge : bool)
  (target : InstallTarget) :
  adds_no is_clone_call (install_target P skillDir skillName force merge target).
Proof.
  unfold install_target, pathExists, promptConflictAction, copyDir,
    fs_mkdir, fs_access, fs_rm, fs_cp.
  adds_no_steps.
Qed.

Lemma no_clone_install_from (skillDir : string) (destination : option string)
  (force merge : bool) :
  adds_no is_clone_call (install_from P skillDir destination force merge).
Proof.
  unfold install_from.
  apply adds_no_bind; [unfold fs_readFile; adds_no_steps | intros contents].
  apply adds_no_bind; [adds_no_steps | intros fm].
  apply adds_no_bind; [adds_no_steps | intros _].
  apply adds_no_bind; [adds_no_steps | intros _].
  apply adds_no_for_of. intros t. apply no_clone_install_target.
Qed.

Lemma no_clone_local_resolve (input : string) (subdir ref : option string) :
  parseRepoSpec input = None ->
  adds_no is_clone_call (resolveSkillSource P input subdir ref).
Proof.
  intros Hp. unfold resolveSkillSource. rewrite Hp.
  unfold resolveSkillDirFromBase, fs_stat. adds_no_steps.
Qed.

(** X12.  A run whose source has no repo spec (a local path) never makes
    a temporary directory and never spawns a process: git is not needed
    to install from a local directory. *)
Theorem local_source_never_clones (o : InstallOptions) (w : World)
  (input : string) :
  skillPath o = Some input ->
  parseRepoSpec (if isRepoLike input then input
                 else Path.resolve (cwd (env P)) input) = None ->
  existsb is_clone_call (trace (snd (runInstall P o w)))
  = existsb is_clone_call (trace w).
Proof.
  intros Hs Hp. revert w. change (adds_no is_clone_call (runInstall P o)).
  unfold runInstall. rewrite Hs. cbn [text_of].
  destruct (negb (Str.truthy_opt (Some input))); [adds_no_steps|].
  destruct (force o && merge o); [adds_no_steps|].
  eapply adds_no_bind_post.
  - intros w a w1 H. exact (cleanup_shape _ _ _ _ _ _ H).
  - apply no_clone_local_resolve. exact Hp.
  - intros r [[_ Hc] | [Hsome _]]; [|congruence].
    apply adds_no_try_finally; [apply no_clone_install_from|].
    rewrite Hc. apply adds_no_ret.
Qed.

End RunCalls.

Lemma flags_make_run_non_interactive_witness :
  existsb is_prompt
    (trace (snd (runInstall (sample_platform SpawnENOENT)
                   (mkOptions (Some "skill") None None None false true)
                   sample_world)))
  = existsb is_prompt (trace sample_world).
Proof.
  apply (flags_make_run_non_interactive (sample_platform SpawnENOENT)).
  reflexivity.
Defined.

Lemma local_source_never_clones_witness :
  existsb is_clone_call
    (trace (snd (runInstall (sample_platform SpawnENOENT)
                   (mkOptions (Some "skill") None None None true false)
                   sample_world)))
  = existsb is_clone_call (trace sample_world).
Proof.
  apply (local_source_never_clones (sample_platform SpawnENOENT) _ _ "skill");
    reflexivity.
Defined.

Lemma local_resolution_reads_only_witness :
  fs (snd (resolveSkillSource (sample_platform SpawnENOENT) "/work/skill"
             None None sample_world)) = sample_fs
  /\ forall r w1,
       resolveSkillSource (sample_platform SpawnENOENT) "/work/skill"
         None None sample_world = (Returned r, w1) ->
       cleanup r = None.
Proof.
  apply (local_resolution_reads_only (sample_platform SpawnENOENT)
           "/work/skill" None None sample_world).
  reflexivity.
Defined.

(** A repository whose checkout holds the sample manifest. *)
Lemma clone_dir_removed_after_resolution_witness :
  let P := sample_platform (Closed 0 [("SKILL.md", Fs.File "manifest")]) in
  let o := mkOptions (Some "o/r") None None None true false in
  Fs.find (seg P (cloneDir_of P)) (fs (snd (runInstall P o sample_world))) = None
  /\ exists tr,
       trace (snd (runInstall P o sample_world))
       = (tr ++ [EvRm (cloneDir_of P)])%list.
Proof.
  cbv zeta.
  eapply (clone_dir_removed_after_resolution
            (sample_platform (Closed 0 [("SKILL.md", Fs.File "manifest")]))
            (mkOptions (Some "o/r") None None None true false)
            sample_world _ "o/r"
            (mkRepoSpec "https://github.com/o/r.git" None None)).
  - reflexivity.
  - reflexivity.
  - reflexivity.
  - vm_compute. reflexivity.
Defined.

(** ** One target *)

(** X14.  Cancelling at the conflict prompt leaves everything as it
    is: when the target skill directory exists, neither flag is set and
    the operator answers skip, the target is processed with four calls
    (make the base, test the directory, ask, report) and the file system
    is unchanged. *)
Theorem skip_changes_nothing (P : Platform) (skillDir skillName : string)
  (target : InstallTarget) (w : World) (ds : list (string * Fs.node))
  (existing : Fs.node) :
  let targetSkillDir := Path.join [baseDir target; skillName] in
  Fs.find (seg P (baseDir target)) (fs w) = Some (Fs.Dir ds) ->
  Fs.find (seg P targetSkillDir) (fs w) = Some existing ->
  inquirer_prompt P (label target) targetSkillDir = skip ->
  install_target P skillDir skillName false false target w
  = (Returned tt,
     mkWorld (fs w)
       (trace w ++ [EvMkdir (baseDir target); EvAccess targetSkillDir;
                    EvPrompt (label target) targetSkillDir;
                    EvLog ("Skipped " ++ label target ++ ": " ++ targetSkillDir)])).
Proof.
  intros dir Hbase Hdir Hskip.
  unfold install_target, pathExists, promptConflictAction, fs_mkdir, fs_access,
    catch_null, bind, emit, get_fs, set_fs, ret, throw.
  fold dir. cbn [fs trace].
  rewrite (FsFacts.mkdirp_existing _ _ _ Hbase). cbn [fs trace].
  rewrite Hdir. cbn [andb negb]. rewrite Hskip. cbn [fs trace].
  rewrite <- !app_assoc. reflexivity.
Qed.

Lemma skip_changes_nothing_witness :
  install_target (sample_platform SpawnENOENT) "/work/skill" "demo" false false
    (mkTarget "claude-user" "/home/u/.claude/skills") sample_world
  = (Returned tt,
     mkWorld sample_fs
       [EvMkdir "/home/u/.claude/skills"; EvAccess "/home/u/.claude/skills/demo";
        EvPrompt "claude-user" "/home/u/.claude/skills/demo";
        EvLog "Skipped claude-user: /home/u/.claude/skills/demo"]).
Proof.
  apply (skip_changes_nothing (sample_platform SpawnENOENT) "/work/skill" "demo"
           (mkTarget "claude-user" "/home/u/.claude/skills") sample_world
           [("demo", Fs.Dir [("notes.txt", Fs.File "mine");
                             ("SKILL.md", Fs.File "old manifest")])]
           (Fs.Dir [("notes.txt", Fs.File "mine");
                    ("SKILL.md", Fs.File "old manifest")]));
    reflexivity.
Defined.

(** X15.  A manifest that does not validate stops the installation
    before any target is touched: after reading [SKILL.md] the run
    throws the validator's error, with the file system as it was and no
    call after the read. *)
Theorem invalid_manifest_touches_nothing (P : Platform) (skillDir : string)
  (destination : option string) (force merge : bool) (w : World)
  (contents : string) (frontmatter : JS.value) (e : exn) :
  let skillFile := Path.join [skillDir; "SKILL.md"] in
  Fs.find (seg P skillFile) (fs w) = Some (Fs.File contents) ->
  matter P contents = Some frontmatter ->
  validateFrontmatter frontmatter skillFile = Throw e ->
  install_from P skillDir destination force merge w
  = (Thrown e, mkWorld (fs w) (trace w ++ [EvReadFile skillFile])).
Proof.
  intros file Hfile Hmatter Hinvalid.
  unfold install_from, fs_readFile, bind, emit, get_fs, ret, throw.
  fold file. cbn [fs trace]. rewrite Hfile, Hmatter, Hinvalid. reflexivity.
Qed.

Lemma invalid_manifest_touches_nothing_witness :
  install_from
    (mkPlatform sample_env "AbC123" (fun _ => SpawnENOENT)
       (fun _ => Some (manifest (JS.VStr "demo") (JS.VStr "A demo skill")
                                (JS.VStr "1.0")))
       (fun _ _ => skip))
    "/work/skill" None true false sample_world
  = (Thrown (Error (violation_message (BadVersion "1.0") "/work/skill/SKILL.md")),
     mkWorld (fs sample_world) [EvReadFile "/work/skill/SKILL.md"]).
Proof.
  apply (invalid_manifest_touches_nothing
           (mkPlatform sample_env "AbC123" (fun _ => SpawnENOENT)
              (fun _ => Some (manifest (JS.VStr "demo") (JS.VStr "A demo skill")
                                       (JS.VStr "1.0")))
              (fun _ _ => skip))
           "/work/skill" None true false sample_world "manifest"
           (manifest (JS.VStr "demo") (JS.VStr "A demo skill") (JS.VStr "1.0")));
    reflexivity.
Defined.

(** ** Project targets *)

Lemma append_cancel_l (x a b : string) : x ++ a = x ++ b -> a = b.
Proof.
  induction x as [|c x IH]; simpl; [auto|]. intros [= H]. exact (IH H).
Qed.

Lemma under_injective (root a b : string) : under root a = under root b -> a = b.
Proof.
  unfold under. intros H. apply append_cancel_l in H.
  change ("/" ++ a = "/" ++ b) in H. exact (append_cancel_l "/" a b H).
Qed.

(** X16.  With a project path the three targets are three different
    directories: no assistant's installation lands in another's. *)
Theorem project_targets_distinct (e : Env) (project : string) :
  project <> "" ->
  NoDup (map baseDir (getInstallTargets e (Some project))).
Proof.
  intros Hp. apply StrFacts.truthy_true in Hp.
  unfold getInstallTargets. cbn [Str.truthy_opt]. rewrite Hp.
  rewrite !(join_config_skills (cwd e))
    by (apply PathFacts.resolve_isAbsolute || reflexivity).
  rewrite PathFacts.resolve_idempotent. cbn [map baseDir].
  set (root := Path.resolve (cwd e) project).
  repeat constructor; cbn [In];
    intros H; repeat (destruct H as [H|H]; [apply under_injective in H; discriminate|]);
    exact H.
Qed.

Lemma project_targets_distinct_witness :
  NoDup (map baseDir (getInstallTargets sample_env (Some "proj"))).
Proof. apply project_targets_distinct. discriminate. Defined.

(** ** Overwriting a skill with itself *)

Lemma is_prefix_app (p q : list string) :
  Fs.is_prefix p q = true -> exists r, q = (p ++ r)%list.
Proof.
  revert q. induction p as [|a p IH]; intros q H; [exists q; reflexivity|].
  destruct q as [|b q]; [discriminate|].
  rewrite TreeFacts.is_prefix_cons in H. apply andb_true_iff in H as [Hab Hpq].
  apply String.eqb_eq in Hab. subst b.
  destruct (IH q Hpq) as [r ->]. exists r. reflexivity.
Qed.

Lemma is_prefix_refl (p : list string) : Fs.is_prefix p p = true.
Proof.
  induction p as [|a p IH]; [reflexivity|].
  rewrite TreeFacts.is_prefix_cons, String.eqb_refl. exact IH.
Qed.

(** X17.  The overwrite action does not look at where the source is:
    when the source is the destination itself or lies inside it, the
    [fs.rm] deletes the source together with the destination, the copy
    then throws, and an empty directory is all that is left at the
    destination. *)
Theorem overwrite_from_inside_destroys_source (P : Platform)
  (sourceDir targetDir : string) (w : World) (ps : list (string * Fs.node)) :
  Fs.is_prefix (seg P targetDir) (seg P sourceDir) = true ->
  seg P targetDir <> [] ->
  Fs.find (removelast (seg P targetDir)) (fs w) = Some (Fs.Dir ps) ->
  let run := (fs_rm P targetDir ;;; copyDir P sourceDir targetDir) w in
  (exists e, fst run = Thrown e)
  /\ Fs.find (seg P targetDir) (fs (snd run)) = Some (Fs.Dir []).
Proof.
  intros Hin HT Hp.
  set (S := seg P sourceDir) in *. set (T := seg P targetDir) in *.
  destruct (is_prefix_app T S Hin) as [q HS].
  set (t1 := Fs.remove T (fs w)).
  assert (Hn1 : Fs.find T t1 = None) by (apply find_remove; exact HT).
  destruct (TreeFacts.remove_keeps_parent T (fs w) ps HT Hp) as [ps' Hp1].
  fold t1 in Hp1.
  destruct (TreeFacts.mkdirp_below T t1 ps' HT Hp1 Hn1) as [t2 Hm].
  pose proof (TreeFacts.mkdirp_makes T t1 t2 Hm Hn1) as Hd2.
  assert (Hrun : exists e,
             (fs_rm P targetDir ;;; copyDir P sourceDir targetDir) w
             = (Thrown e,
                mkWorld t2 (((trace w ++ [EvRm targetDir]) ++ [EvMkdir targetDir])
                            ++ [EvCp sourceDir targetDir]))).
  { unfold copyDir, fs_rm, fs_mkdir, fs_cp, bind, emit, get_fs, set_fs, ret, throw.
    cbn [fs trace]. fold S T t1. rewrite Hm. cbn [fs trace].
    rewrite HS, FsFacts.find_app, Hd2.
    destruct q as [|k q'].
    - rewrite app_nil_r, is_prefix_refl. cbn [Fs.find]. eexists; reflexivity.
    - cbn [Fs.find Fs.lookup JS.assoc]. eexists; reflexivity. }
  destruct Hrun as [e Hrun]. cbv zeta. rewrite Hrun. cbn [fst snd fs].
  split; [exists e; reflexivity | exact Hd2].
Qed.

Lemma overwrite_from_inside_destroys_source_witness :
  let run := (fs_rm (sample_platform SpawnENOENT) "/work/skill" ;;;
              copyDir (sample_platform SpawnENOENT) "/work/skill" "/work/skill")
               sample_world in
  (exists e, fst run = Thrown e)
  /\ Fs.find ["work"; "skill"] (fs (snd run)) = Some (Fs.Dir []).
Proof.
  apply (overwrite_from_inside_destroys_source (sample_platform SpawnENOENT)
           "/work/skill" "/work/skill" sample_world
           [("skill", Fs.Dir [("SKILL.md", Fs.File "manifest");
                              ("guide.md", Fs.File "guide")])]).
  - reflexivity.
  - discriminate.
  - reflexivity.
Defined.
